(** * start_mirt_pipeline: the pipeline control logic, embedded and verified

    A shallow embedding of [src/start_mirt_pipeline.py] (Python 2).  The
    script threads a filesystem, a clock, its standard output and a handful
    of calls into external modules ([mirt_train_EM], [generate_predictions],
    [visualize], [adaptive_pretest], [generate_responses],
    [model_training_util]).  Those modules are collaborators: their code is
    not part of the script, so they are taken as parameters (a record of
    fallible world transformers), and every call is recorded in a trace.

    Python values are modelled as the script has them: [str] as [string]
    (byte strings, compared byte-wise), [int] as [Z], lists as [list],
    exceptions as an error result, local variables that may be unbound as
    [option]. *)

From Stdlib Require Import Ascii String.
From stdpp Require Import base strings list gmap sorting pretty.

Open Scope string_scope.
Open Scope list_scope.
Open Scope Z_scope.

(** ** Python values and exceptions *)

Module Py.

(** The exceptions the script can end with. *)
Inductive exn : Type :=
| OSError (errno : Z) (filename : string)   (* os.listdir on a path it cannot list *)
| IndexError                                (* list index out of range *)
| UnboundLocalError (name : string)         (* local read before assignment *)
| Foreign (msg : string).                   (* raised inside a collaborator *)

(** [errno.ENOENT]: no such file or directory. *)
Definition ENOENT : Z := 2.

(** [errno.EACCES]: permission denied. *)
Definition EACCES : Z := 13.

(** [errno.ENOTDIR]: not a directory. *)
Definition ENOTDIR : Z := 20.

Inductive result (A : Type) : Type :=
| Ok (a : A)
| Raise (e : exn).
Global Arguments Ok {A} a.
Global Arguments Raise {A} e.

(** [str(n)] and ["%s" % n] on an [int]: signed decimal, no padding. *)
Definition str (n : Z) : string := pretty n.

(** Truth value of a [str]: false exactly for the empty string. *)
Definition truthy (s : string) : bool :=
  match s with
  | EmptyString => false
  | String _ _ => true
  end.

(** [s.split(sep)] for a one-character separator: the pieces between the
    occurrences of [sep]; never an empty list. *)
Fixpoint split (sep : ascii) (s : string) : list string :=
  match s with
  | EmptyString => [EmptyString]
  | String c s' =>
      if decide (c = sep) then EmptyString :: split sep s'
      else match split sep s' with
           | piece :: pieces => String c piece :: pieces
           | [] => [String c EmptyString]
           end
  end.

(** [l[-1]]: the last element, [IndexError] on an empty list. *)
Definition index_last {A} (l : list A) : result A :=
  match last l with
  | Some x => Ok x
  | None => Raise IndexError
  end.

(** [l.sort(key=key)] on [str] keys: a stable sort, comparing keys with
    [<] only.  Each element is placed before the first element whose key
    is strictly greater, so equal keys keep their original order. *)
Fixpoint insert_by_key {A} (key : A → string) (x : A) (l : list A) : list A :=
  match l with
  | [] => [x]
  | y :: l' =>
      if String.ltb (key x) (key y) then x :: y :: l'
      else y :: insert_by_key key x l'
  end.

Definition sort_by_key {A} (key : A → string) (l : list A) : list A :=
  foldl (λ sorted x, insert_by_key key x sorted) [] l.

End Py.
Import Py.

(** ** The command line namespace

    The attributes [get_command_line_arguments] puts on the parsed
    namespace (lines 54-110). *)
Record Namespace : Type := mkNamespace {
  data_file : string;
  abilities : list Z;
  num_students : Z;
  num_problems : Z;
  time : string;
  workers : Z;
  num_epochs : Z;
  model_directory : string;
  model : string;
  generate : bool;
  train : bool;
  visualize : bool;
  test : bool;
  include_time : bool
}.

(** Line 109: the flag derived from the time mode once the options are parsed. *)
Definition derive_include_time (mode : string) : bool :=
  bool_decide (mode = "with_time") || bool_decide (mode = "with_and_without_time").

(** ** The world outside the script *)

(** What [os.listdir] finds at a path that exists: a directory it can read,
    with the names it returns in the order it returns them, or something it
    refuses with an [errno] (a regular file: [ENOTDIR]; a directory the
    process may not read: [EACCES]; any other failure of the system call). *)
Inductive node : Type :=
| Dir (names : list string)
| Refused (errno : Z).

(** A path that is not mapped does not exist. *)
Record world : Type := mkWorld {
  fs : gmap string node;
  clock : string   (* datetime.now().strftime("%Y_%m_%d_%H_%M") *)
}.

(** [mkdir_p] is called with a list of paths (line 151) and with a single
    path (line 166). *)
Inductive mkdir_arg : Type :=
| PathList (paths : list string)
| PathStr (path : string).

Section Model.

(** A point of a ROC curve; the script only passes curves along. *)
Context {point : Type}.

Definition curve : Type := list point.

(** The external collaborators: each may change the world and may raise. *)
Record collaborators : Type := mkCollaborators {
  generate_responses_run : Namespace → world → result unit * world;
  mkdir_p : mkdir_arg → world → result unit * world;
  sep_into_train_and_test : Namespace → world → result unit * world;
  run_programmatically : list string → world → result unit * world;
  load_and_simulate_assessment :
    string → string → string → world → result curve * world;
  show_roc : gmap string curve → world → result unit * world;
  show_exercises : string → world → result unit * world;
  adaptive_pretest_main : string → world → result unit * world
}.

(** What the script does to the outside, in order. *)
Inductive event : Type :=
| EvPrint (line : string)
| EvGenerate (arguments : Namespace)
| EvMkdir (arg : mkdir_arg)
| EvSplit (arguments : Namespace)
| EvTrain (mirt_train_params : list string)
| EvSimulate (params roc_file test_file : string) (returned : result curve)
| EvShowRoc (curves : gmap string curve)
| EvShowExercises (model : string)
| EvAdaptiveTest (model : string).

(** *** The monad of the script: state, exceptions and a trace *)

Definition M (A : Type) : Type := world → result A * world * list event.

Definition ret {A} (a : A) : M A := λ w, (Ok a, w, []).

Definition raise {A} (e : exn) : M A := λ w, (Raise e, w, []).

Definition bind {A B} (m : M A) (k : A → M B) : M B := λ w,
  match m w with
  | (Ok a, w1, t1) =>
      match k a w1 with
      | (r, w2, t2) => (r, w2, t1 ++ t2)
      end
  | (Raise e, w1, t1) => (Raise e, w1, t1)
  end.

(** A collaborator call that leaves one event. *)
Definition call {A} (ev : event) (f : world → result A * world) : M A := λ w,
  match f w with
  | (r, w') => (r, w', [ev])
  end.

(** A value that is there or an exception, as a step of the script. *)
Definition of_result {A} (r : result A) : M A := λ w, (r, w, []).

(** [print line]. *)
Definition print (line : string) : M unit := λ w, (Ok tt, w, [EvPrint line]).

(** Reading a local variable that may not have been assigned yet. *)
Definition read_local {A} (name : string) (v : option A) : M A :=
  match v with
  | Some x => ret x
  | None => raise (UnboundLocalError name)
  end.

(** A [for] statement over a list: the body runs on each element in turn,
    threading the local variables; an exception ends the loop. *)
Fixpoint for_each {A S} (l : list A) (body : A → S → M S) (s : S) : M S :=
  match l with
  | [] => ret s
  | x :: l' => bind (body x s) (for_each l' body)
  end.

End Model.

Global Arguments collaborators : clear implicits.
Global Arguments event : clear implicits.
Global Arguments M : clear implicits.

Declare Scope py_scope.
Delimit Scope py_scope with py.
Notation "x <- m ;; k" := (bind m (λ x, k))
  (at level 100, m at next level, right associativity) : py_scope.
Notation "m ;; k" := (bind m (λ _, k))
  (at level 100, right associativity) : py_scope.

Open Scope py_scope.

(** ** The script *)

(** The local variables of [run_with_arguments] that are read after the
    statement assigning them may have been skipped (lines 221, 225-229).
    [None] is "not assigned yet". *)
Record locals {point : Type} : Type := mkLocals {
  v_time : option string;
  v_roc_curve : option (@curve point);
  v_params : option string;
  v_model : option string
}.
Global Arguments locals : clear implicits.
Global Arguments mkLocals {point} _ _ _ _.

Definition unbound {point : Type} : locals point := mkLocals None None None None.

(** Lines 154-158. *)
Definition gen_param_str (abilities : Z) (datetime_str time : string) : string :=
  let time_str := if truthy time then "time" else "no_time" in
  str abilities +:+ "_" +:+ time_str +:+ "_" +:+ datetime_str.

(** The key of line 138: [fname.split('_')[-1]]. *)
Definition suffix_key (fname : string) : string :=
  match index_last (split "_" fname) with
  | Ok piece => piece
  | Raise _ => EmptyString
  end.

Section Script.

Context {point : Type} (ext : collaborators point).

Local Abbreviation M := (M point).
Local Abbreviation locals := (locals point).

(** [os.listdir(path)]. *)
Definition os_listdir (path : string) : M (list string) := λ w,
  match fs w !! path with
  | Some (Dir names) => (Ok names, w, [])
  | Some (Refused errno) => (Raise (OSError errno path), w, [])
  | None => (Raise (OSError ENOENT path), w, [])
  end.

(** [datetime.datetime.now().strftime("%Y_%m_%d_%H_%M")]. *)
Definition now_strftime : M string := λ w, (Ok (clock w), w, []).

(** Lines 115-129. *)
Definition get_time_arguments (arguments : Namespace) : M (list string) :=
  if decide (time arguments = "with_and_without_time") then
    ret [""; "-z"]
  else if decide (time arguments = "without_time") then
    ret ["-z"]
  else if decide (time arguments = "with_time") then
    ret [""]
  else
    print "Invalid argument selected for --time" ;;
    print "Choosing default behavior - with time" ;;
    ret [""].

(** Lines 132-139. *)
Definition get_latest_parameter_file_name (path : string) : M string :=
  npz_files <- os_listdir path ;;
  let npz_files := sort_by_key suffix_key npz_files in
  latest <- of_result (index_last npz_files) ;;
  ret (path +:+ latest).

(** Lines 148-151. *)
Definition make_necessary_directiories (arguments : Namespace) : M unit :=
  let roc_dir := model_directory arguments +:+ "rocs/" in
  call (EvMkdir (PathList [roc_dir])) (mkdir_p ext (PathList [roc_dir])).

(** Lines 169-176: the argument vector handed to the trainer. *)
Definition mirt_train_params
    (arguments : Namespace) (abilities : Z) (time out_dir_name : string)
    : list string :=
  let mirt_train_params :=
    ["-a"; str abilities;
     "-w"; str (workers arguments);
     "-n"; str (num_epochs arguments);
     "-f"; model_directory arguments +:+ "train.responses";
     "-o"; out_dir_name] in
  if truthy time then mirt_train_params ++ [time] else mirt_train_params.

(** Lines 161-178. *)
Definition generate_model_with_parameters
    (arguments : Namespace) (abilities : Z) (time datetime_str : string)
    : M unit :=
  let param_str := gen_param_str abilities datetime_str time in
  let out_dir_name := model_directory arguments +:+ param_str +:+ "/" in
  call (EvMkdir (PathStr out_dir_name)) (mkdir_p ext (PathStr out_dir_name)) ;;
  let params := mirt_train_params arguments abilities time out_dir_name in
  call (EvTrain params) (run_programmatically ext params).

(** The call of lines 191-192, with the value it returned kept in the trace. *)
Definition simulate (params roc_file test_file : string) : M curve := λ w,
  match load_and_simulate_assessment ext params roc_file test_file w with
  | (r, w') => (r, w', [EvSimulate params roc_file test_file r])
  end.

(** Lines 181-192. *)
Definition generate_roc_curve_from_model
    (arguments : Namespace) (abilities : Z) (time datetime_str : string)
    : M curve :=
  let roc_dir := model_directory arguments +:+ "rocs/" in
  let test_file := model_directory arguments +:+ "test.responses" in
  let param_str := gen_param_str abilities datetime_str time in
  let out_dir_name := model_directory arguments +:+ param_str +:+ "/" in
  params <- get_latest_parameter_file_name out_dir_name ;;
  let roc_file := roc_dir +:+ param_str +:+ ".roc" in
  simulate params roc_file test_file.

(** Lines 217-220: the body of the inner [for], one grid cell. *)
Definition cell_body
    (arguments : Namespace) (abilities : Z) (datetime_str : string)
    (time : string) (vars : locals) : M locals :=
  generate_model_with_parameters arguments abilities time datetime_str ;;
  roc_curve <- generate_roc_curve_from_model
                 arguments abilities time datetime_str ;;
  ret (mkLocals (Some time) (Some roc_curve) (v_params vars) (v_model vars)).

(** Lines 216-223: the body of the outer [for], one ability value. *)
Definition ability_body
    (arguments : Namespace) (datetime_str : string)
    (abilities : Z) (vars : locals) : M locals :=
  time_arguments <- get_time_arguments arguments ;;
  vars <- for_each time_arguments
            (cell_body arguments abilities datetime_str) vars ;;
  time <- read_local "time" (v_time vars) ;;
  let params := gen_param_str abilities datetime_str time in
  let out_dir_name := model_directory arguments +:+ params +:+ "/" in
  model <- get_latest_parameter_file_name out_dir_name ;;
  ret (mkLocals (v_time vars) (v_roc_curve vars) (Some params) (Some model)).

(** Lines 215-223: the train and evaluate loop. *)
Definition train_loop
    (arguments : Namespace) (datetime_str : string) (vars : locals)
    : M locals :=
  for_each (abilities arguments) (ability_body arguments datetime_str) vars.

(** Lines 202-223: the branch taken when [arguments.train] is set. *)
Definition train_stage (arguments : Namespace) (vars : locals) : M locals :=
  make_necessary_directiories arguments ;;
  call (EvSplit arguments) (sep_into_train_and_test ext arguments) ;;
  print "Training MIRT models" ;;
  datetime_str <- now_strftime ;;
  train_loop arguments datetime_str vars.

(** Lines 225-227.  A dict display evaluates the value before the key in
    Python 2, so [roc_curve] is read before [params]. *)
Definition visualize_stage (vars : locals) : M unit :=
  model <- read_local "model" (v_model vars) ;;
  print ("visualizing for " +:+ model) ;;
  roc_curve <- read_local "roc_curve" (v_roc_curve vars) ;;
  params <- read_local "params" (v_params vars) ;;
  let curves : gmap string curve := {[ params := roc_curve ]} in
  call (EvShowRoc curves) (show_roc ext curves) ;;
  model <- read_local "model" (v_model vars) ;;
  call (EvShowExercises model) (show_exercises ext model).

(** Line 229. *)
Definition test_stage (vars : locals) : M unit :=
  model <- read_local "model" (v_model vars) ;;
  call (EvAdaptiveTest model) (adaptive_pretest_main ext model).

(** Lines 195-229. *)
Definition run_with_arguments (arguments : Namespace) : M unit :=
  (if generate arguments
   then call (EvGenerate arguments) (generate_responses_run ext arguments)
   else ret tt) ;;
  vars <- (if train arguments
           then train_stage arguments unbound
           else ret unbound) ;;
  (if visualize arguments then visualize_stage vars else ret tt) ;;
  (if test arguments then test_stage vars else ret tt).

End Script.

(** ** A concrete run, used to exercise the model

    Collaborators that do the least their contracts ask for: the trainer
    writes three checkpoints into the directory it is given after [-o], the
    evaluator returns a curve naming the checkpoint and the curve file it
    was called with, the others do nothing. *)

Definition demo_checkpoints : list string :=
  ["theta_03"; "theta_9"; "theta_10"].

Definition demo_train (mirt_train_params : list string) (w : world)
    : result unit * world :=
  match mirt_train_params !! 9%nat with
  | Some out_dir => (Ok tt, mkWorld (<[out_dir := Dir demo_checkpoints]> (fs w)) (clock w))
  | None => (Raise (Foreign "missing -o"), w)
  end.

Definition demo_ext : collaborators string :=
  mkCollaborators
    (λ _ w, (Ok tt, w))
    (λ _ w, (Ok tt, w))
    (λ _ w, (Ok tt, w))
    demo_train
    (λ params roc_file _ w, (Ok [params; roc_file], w))
    (λ _ w, (Ok tt, w))
    (λ _ w, (Ok tt, w))
    (λ _ w, (Ok tt, w)).

Definition demo_world : world := mkWorld ∅ "2015_06_01_12_30".

Definition demo_arguments (abilities : list Z) (time : string)
    (generate train visualize test : bool) : Namespace :=
  mkNamespace "all.responses" abilities 500 10 time 1 100
    "models/" "models/model.json" generate train visualize test
    (derive_include_time time).

(** ** Vocabulary of the properties *)

(** The grid the two nested [for] statements of lines 215-216 range over:
    every ability value, and for each of them every time argument. *)
Definition grid (abilities : list Z) (time_arguments : list string)
    : list (Z * string) :=
  a ← abilities; t ← time_arguments; [(a, t)].

(** The tag of each cell of a grid under one run timestamp. *)
Definition grid_tags (datetime_str : string) (cells : list (Z * string))
    : list string :=
  (λ cell, gen_param_str cell.1 datetime_str cell.2) <$> cells.

(** A time argument stands for "time included" when it is the empty string:
    that is what [get_time_arguments] produces for [with_time]. *)
Definition time_included (time : string) : Prop := time = EmptyString.

(** Order on sort keys: byte-wise lexicographic order of [str]. *)
Definition key_le (f g : string) : Prop := String.le (suffix_key f) (suffix_key g).

(** Whether a character occurs in a string. *)
Fixpoint occurs (c : ascii) (s : string) : bool :=
  match s with
  | EmptyString => false
  | String c' s' => bool_decide (c' = c) || occurs c s'
  end.

(** The trainer calls of a trace, in order. *)
Definition train_calls {point} (evs : list (event point)) : list (list string) :=
  omap (λ ev, match ev with EvTrain p => Some p | _ => None end) evs.

(** The curve files the evaluator was asked to write, in order. *)
Definition simulate_calls {point} (evs : list (event point)) : list string :=
  omap (λ ev, match ev with EvSimulate _ roc_file _ _ => Some roc_file | _ => None end) evs.

(** The calls into the visualisation and adaptive test modules of a trace. *)
Definition is_consumer_call {point} (ev : event point) : bool :=
  match ev with
  | EvShowRoc _ | EvShowExercises _ | EvAdaptiveTest _ => true
  | _ => false
  end.

(** The directory, the trainer arguments and the curve file of a grid cell
    (lines 164-174 and 185-190). *)
Definition cell_out_dir (arguments : Namespace) (datetime_str : string)
    (cell : Z * string) : string :=
  model_directory arguments +:+ gen_param_str cell.1 datetime_str cell.2 +:+ "/".

Definition cell_train_params (arguments : Namespace) (datetime_str : string)
    (cell : Z * string) : list string :=
  mirt_train_params arguments cell.1 cell.2 (cell_out_dir arguments datetime_str cell).

Definition cell_roc_file (arguments : Namespace) (datetime_str : string)
    (cell : Z * string) : string :=
  (model_directory arguments +:+ "rocs/")
    +:+ gen_param_str cell.1 datetime_str cell.2 +:+ ".roc".

(** The namespace with another value for the [--model] option. *)
Definition set_model (path : string) (arguments : Namespace) : Namespace :=
  mkNamespace (data_file arguments) (abilities arguments)
    (num_students arguments) (num_problems arguments) (time arguments)
    (workers arguments) (num_epochs arguments) (model_directory arguments)
    path (generate arguments) (train arguments) (visualize arguments)
    (test arguments) (include_time arguments).

(** The ten tokens every trainer call starts with (lines 169-174). *)
Definition base_train_params (arguments : Namespace) (abilities : Z)
    (out_dir_name : string) : list string :=
  ["-a"; str abilities;
   "-w"; str (workers arguments);
   "-n"; str (num_epochs arguments);
   "-f"; model_directory arguments +:+ "train.responses";
   "-o"; out_dir_name].

(** The four stages of [run_with_arguments], in the order of its [if]
    statements (lines 199, 201, 224 and 228). *)
Inductive stage : Type := StGenerate | StTrain | StVisualize | StTest.

Definition stage_rank (s : stage) : nat :=
  match s with
  | StGenerate => 0
  | StTrain => 1
  | StVisualize => 2
  | StTest => 3
  end.

(** The flag that lets a stage run. *)
Definition stage_flag (arguments : Namespace) (s : stage) : bool :=
  match s with
  | StGenerate => generate arguments
  | StTrain => train arguments
  | StVisualize => visualize arguments
  | StTest => test arguments
  end.

(** The stage whose code makes a collaborator call; a printed line is not a
    call. *)
Definition stage_of {point} (ev : event point) : option stage :=
  match ev with
  | EvPrint _ => None
  | EvGenerate _ => Some StGenerate
  | EvMkdir _ | EvSplit _ | EvTrain _ | EvSimulate _ _ _ _ => Some StTrain
  | EvShowRoc _ | EvShowExercises _ => Some StVisualize
  | EvAdaptiveTest _ => Some StTest
  end.

(** The time modes [get_time_arguments] knows (lines 119-123). *)
Definition recognised_mode (mode : string) : Prop :=
  mode = "with_and_without_time" ∨ mode = "without_time" ∨ mode = "with_time".

(** Collaborators that keep to their contracts on a namespace: none of them
    raises, the trainer leaves at least one entry in the directory it is
    given after [-o] (the tenth token), and the evaluator changes no
    directory listing but that of the curve directory. *)
Definition sound_collaborators {point} (ext : collaborators point)
    (arguments : Namespace) : Prop :=
  (∀ w, ∃ w', generate_responses_run ext arguments w = (Ok tt, w'))
  ∧ (∀ arg w, ∃ w', mkdir_p ext arg w = (Ok tt, w'))
  ∧ (∀ w, ∃ w', sep_into_train_and_test ext arguments w = (Ok tt, w'))
  ∧ (∀ p d w, p !! 9%nat = Some d →
       ∃ w' name names,
         run_programmatically ext p w = (Ok tt, w')
         ∧ fs w' !! d = Some (Dir (name :: names)))
  ∧ (∀ ckpt roc_file test_file w,
       ∃ c w',
         load_and_simulate_assessment ext ckpt roc_file test_file w = (Ok c, w')
         ∧ ∀ d, d ≠ model_directory arguments +:+ "rocs/" → fs w' !! d = fs w !! d)
  ∧ (∀ curves w, ∃ w', show_roc ext curves w = (Ok tt, w'))
  ∧ (∀ m w, ∃ w', show_exercises ext m w = (Ok tt, w'))
  ∧ (∀ m w, ∃ w', adaptive_pretest_main ext m w = (Ok tt, w')).

(** ** Facts about the Python primitives *)

Lemma split_nonempty sep s : split sep s ≠ [].
Proof.
  destruct s as [|c s]; simpl; [done|].
  case_decide; [done|]. by destruct (split sep s).
Qed.

Lemma split_no_sep sep s : occurs sep s = false → split sep s = [s].
Proof.
  induction s as [|c s IH]; simpl; [done|].
  intros [Hc Hs]%orb_false_elim. apply bool_decide_eq_false in Hc.
  rewrite decide_False by done. by rewrite IH.
Qed.

Lemma split_app_sep sep s t :
  ∃ pieces, pieces ≠ [] ∧ split sep (s +:+ String sep t) = pieces ++ split sep t.
Proof.
  induction s as [|c s (pieces & Hne & IH)]; simpl.
  - exists [EmptyString]. by rewrite decide_True.
  - rewrite IH. case_decide.
    + by exists (EmptyString :: pieces).
    + destruct pieces as [|piece pieces]; [done|].
      by exists (String c piece :: pieces).
Qed.

Lemma last_split_app sep s t :
  last (split sep (s +:+ String sep t)) = last (split sep t).
Proof.
  destruct (split_app_sep sep s t) as (pieces & _ & ->).
  pose proof (split_nonempty sep t) as Hne.
  apply last_is_Some in Hne as [x Hx].
  rewrite Hx. apply last_app_Some. by left.
Qed.

(** The sort key is the text after the last underscore. *)
Lemma suffix_key_after_last stem t :
  occurs "_" t = false → suffix_key (stem +:+ "_" +:+ t) = t.
Proof.
  intros Ht. unfold suffix_key, index_last.
  change (stem +:+ "_" +:+ t) with (stem +:+ String "_" t).
  by rewrite last_split_app, split_no_sep.
Qed.

Lemma suffix_key_no_sep t : occurs "_" t = false → suffix_key t = t.
Proof. intros Ht. unfold suffix_key, index_last. by rewrite split_no_sep. Qed.

Lemma ltb_false_le a b : String.ltb a b = false → String.le b a.
Proof.
  unfold String.ltb, String.le, String.leb. rewrite (String.compare_antisym b a).
  by destruct (String.compare a b).
Qed.

Lemma ltb_true_le a b : String.ltb a b = true → String.le a b.
Proof.
  unfold String.ltb, String.le, String.leb. by destruct (String.compare a b).
Qed.

#[local] Instance key_le_trans : Transitive key_le.
Proof. intros f g h. unfold key_le. apply transitivity. Qed.

#[local] Instance key_le_refl : Reflexive key_le.
Proof. intros f. unfold key_le. apply reflexivity. Qed.

Lemma insert_by_key_perm x (l : list string) :
  insert_by_key suffix_key x l ≡ₚ x :: l.
Proof.
  induction l as [|y l IH]; simpl; [done|].
  destruct (String.ltb _ _); [done|].
  rewrite IH. apply Permutation_swap.
Qed.

Lemma sort_by_key_perm (l : list string) : sort_by_key suffix_key l ≡ₚ l.
Proof.
  unfold sort_by_key.
  cut (∀ acc, foldl (λ sorted x, insert_by_key suffix_key x sorted) acc l ≡ₚ acc ++ l).
  { intros H. apply (H []). }
  induction l as [|x l IH]; intros acc; simpl.
  - by rewrite app_nil_r.
  - rewrite IH, insert_by_key_perm. simpl. apply Permutation_middle.
Qed.

Lemma insert_by_key_sorted x (l : list string) :
  StronglySorted key_le l → StronglySorted key_le (insert_by_key suffix_key x l).
Proof.
  induction l as [|y l IH]; simpl; intros Hs.
  - repeat constructor.
  - apply StronglySorted_cons in Hs as [Hy Hl].
    destruct (String.ltb _ _) eqn:Hlt.
    + apply ltb_true_le in Hlt.
      apply StronglySorted_cons. split.
      * constructor; [done|].
        eapply Forall_impl; [exact Hy|]. intros z Hz. by etrans.
      * by apply StronglySorted_cons.
    + apply ltb_false_le in Hlt.
      apply StronglySorted_cons. split; [|by apply IH].
      rewrite insert_by_key_perm. by constructor.
Qed.

Lemma sort_by_key_sorted (l : list string) :
  StronglySorted key_le (sort_by_key suffix_key l).
Proof.
  unfold sort_by_key.
  cut (∀ acc, StronglySorted key_le acc →
         StronglySorted key_le (foldl (λ sorted x, insert_by_key suffix_key x sorted) acc l)).
  { intros H. apply H. constructor. }
  induction l as [|x l IH]; intros acc Hacc; simpl; [done|].
  by apply IH, insert_by_key_sorted.
Qed.

Lemma ltb_true_not_le a b : String.ltb a b = true → ¬ String.le b a.
Proof.
  unfold String.ltb, String.le, String.leb. rewrite (String.compare_antisym b a).
  destruct (String.compare a b); cbn; [done|tauto|done].
Qed.

(** Inserting keeps the entries of one key in their order and puts the new
    entry after those of its own key. *)
Lemma insert_by_key_filter k x (l : list string) :
  StronglySorted key_le l →
  filter (λ f, suffix_key f = k) (insert_by_key suffix_key x l) =
    if decide (suffix_key x = k)
    then filter (λ f, suffix_key f = k) l ++ [x]
    else filter (λ f, suffix_key f = k) l.
Proof.
  induction l as [|y l IH]; intros Hs.
  - cbn [insert_by_key]. rewrite filter_cons, filter_nil. by case_decide.
  - apply StronglySorted_cons in Hs as [Hy Hl]. cbn [insert_by_key].
    destruct (String.ltb _ _) eqn:Hlt.
    + rewrite (filter_cons _ x). case_decide as Hx; [|done].
      apply ltb_true_not_le in Hlt.
      assert (filter (λ f, suffix_key f = k) (y :: l) = []) as ->; [|done].
      destruct (filter (λ f, suffix_key f = k) (y :: l)) as [|z zs] eqn:Hf;
        [done|exfalso].
      assert (z ∈ filter (λ f, suffix_key f = k) (y :: l)) as [Hk Hz]%list_elem_of_filter
        by (rewrite Hf; left).
      apply Hlt. rewrite Hx, <- Hk.
      apply elem_of_cons in Hz as [->|Hz]; [done|].
      rewrite Forall_forall in Hy. by apply Hy.
    + rewrite !(filter_cons _ y), (IH Hl).
      by repeat case_decide.
Qed.

(** The sort is stable: the entries of one key stay in listing order. *)
Lemma sort_by_key_stable k (l : list string) :
  filter (λ f, suffix_key f = k) (sort_by_key suffix_key l)
  = filter (λ f, suffix_key f = k) l.
Proof.
  unfold sort_by_key.
  cut (∀ acc, StronglySorted key_le acc →
         filter (λ f, suffix_key f = k)
           (foldl (λ sorted x, insert_by_key suffix_key x sorted) acc l)
         = filter (λ f, suffix_key f = k) acc ++ filter (λ f, suffix_key f = k) l).
  { intros H. apply (H []). constructor. }
  induction l as [|x l IH]; intros acc Hacc; cbn [foldl].
  - by rewrite filter_nil, app_nil_r.
  - rewrite IH by (by apply insert_by_key_sorted).
    rewrite insert_by_key_filter by done. rewrite (filter_cons _ x).
    case_decide; [|done]. by rewrite <- app_assoc.
Qed.

Lemma sorted_last_greatest (l : list string) f :
  StronglySorted key_le l → last l = Some f → ∀ g, g ∈ l → key_le g f.
Proof.
  intros Hs Hlast g Hg.
  apply last_Some in Hlast as [l' ->].
  apply elem_of_app in Hg as [Hg|Hg].
  - eapply StronglySorted_app_1_elem_of; [done..|]. by apply list_elem_of_singleton.
  - apply list_elem_of_singleton in Hg as ->. done.
Qed.

(** ** The latest-artifact locator *)

Section Locator.

Context {point : Type}.

Local Abbreviation get_latest := (get_latest_parameter_file_name (point := point)).

(** What one call does, by the state of the directory. *)
Lemma get_latest_run path w :
  get_latest path w =
    match fs w !! path with
    | None => (Raise (OSError ENOENT path), w, [])
    | Some (Refused errno) => (Raise (OSError errno path), w, [])
    | Some (Dir names) =>
        match last (sort_by_key suffix_key names) with
        | Some latest => (Ok (path +:+ latest), w, [])
        | None => (Raise IndexError, w, [])
        end
    end.
Proof.
  unfold get_latest_parameter_file_name, bind, os_listdir, of_result, index_last, ret.
  destruct (fs w !! path) as [[names|errno]|]; [|done..].
  by destruct (last (sort_by_key suffix_key names)).
Qed.

Lemma sort_by_key_nonempty (names : list string) :
  names ≠ [] → ∃ latest, last (sort_by_key suffix_key names) = Some latest.
Proof.
  intros Hne. apply last_is_Some. intros Hnil.
  pose proof (sort_by_key_perm names) as Hp. rewrite Hnil in Hp.
  by apply Permutation_nil_l in Hp.
Qed.

(** The locator reads the world and leaves it as it was. *)
Lemma get_latest_readonly path w r w' evs :
  get_latest path w = (r, w', evs) → w' = w ∧ evs = [].
Proof.
  rewrite get_latest_run. intros H.
  destruct (fs w !! path) as [[names|errno]|]; [|by simplify_eq..].
  destruct (last _); by simplify_eq.
Qed.

(** C3.  In a directory that lists at least one entry, the locator sorts the
    entries by the text after their last underscore and returns the
    directory path followed by the last entry of the sorted listing, an
    entry of the directory whose key is greatest in byte-wise lexicographic
    order; it changes nothing and prints nothing.  On the entries with
    suffixes 03, 9 and 10 it returns the one ending in 9. *)
Theorem latest_file_has_greatest_suffix (path : string) (w : world) (names : list string) :
  fs w !! path = Some (Dir names) →
  names ≠ [] →
  (∃ latest,
      get_latest path w = (Ok (path +:+ latest), w, [])
      ∧ last (sort_by_key suffix_key names) = Some latest
      ∧ StronglySorted key_le (sort_by_key suffix_key names)
      ∧ sort_by_key suffix_key names ≡ₚ names
      ∧ latest ∈ names
      ∧ (∀ other, other ∈ names → String.le (suffix_key other) (suffix_key latest))
      ∧ last (filter (λ f, suffix_key f = suffix_key latest) names) = Some latest)
  ∧ (∀ stem tail, occurs "_" tail = false → suffix_key (stem +:+ "_" +:+ tail) = tail)
  ∧ (∀ ts, get_latest "models/run/"
             (mkWorld {[ "models/run/" := Dir ["theta_03"; "theta_9"; "theta_10"] ]} ts)
           = (Ok "models/run/theta_9",
              mkWorld {[ "models/run/" := Dir ["theta_03"; "theta_9"; "theta_10"] ]} ts, [])).
Proof.
  intros Hdir Hne. split; [|split].
  - destruct (sort_by_key_nonempty names Hne) as [latest Hlast].
    exists latest. rewrite get_latest_run, Hdir, Hlast.
    pose proof (sort_by_key_sorted names) as Hsorted.
    pose proof (sort_by_key_perm names) as Hperm.
    repeat split; try done.
    + rewrite <- Hperm. by eapply last_Some_elem_of.
    + intros other Hother. rewrite <- Hperm in Hother.
      by apply (sorted_last_greatest _ _ Hsorted Hlast).
    + rewrite <- sort_by_key_stable.
      apply last_Some in Hlast as [sorted' ->].
      rewrite filter_app, filter_cons, decide_True by done.
      apply last_snoc.
  - apply suffix_key_after_last.
  - intros ts. by vm_compute.
Qed.

(** C4, as the code has it.  The locator fails in three ways and no other.
    On a path that does not exist [os.listdir] raises [OSError] with
    [ENOENT]; on a path it refuses to list (a directory that may not be
    read, a regular file) it raises [OSError] with the [errno] of the
    refusal; on a directory that lists no entry indexing the listing raises
    [IndexError].  In each case nothing changes and nothing is printed.  On
    a directory that lists an entry the locator returns. *)
Theorem latest_file_failures (path : string) (w : world) :
  (fs w !! path = None →
     get_latest path w = (Raise (OSError ENOENT path), w, []))
  ∧ (fs w !! path = Some (Dir []) →
     get_latest path w = (Raise IndexError, w, []))
  ∧ (∀ errno, fs w !! path = Some (Refused errno) →
     get_latest path w = (Raise (OSError errno path), w, []))
  ∧ (∀ name names, fs w !! path = Some (Dir (name :: names)) →
       ∃ latest, get_latest path w = (Ok (path +:+ latest), w, []))
  ∧ (∀ e w' evs, get_latest path w = (Raise e, w', evs) →
       w' = w ∧ evs = []
       ∧ ((e = OSError ENOENT path ∧ fs w !! path = None)
          ∨ (e = IndexError ∧ fs w !! path = Some (Dir []))
          ∨ (∃ errno, e = OSError errno path ∧ fs w !! path = Some (Refused errno)))).
Proof.
  rewrite get_latest_run. split; [|split; [|split; [|split]]].
  - by intros ->.
  - by intros ->.
  - by intros errno ->.
  - intros name names ->.
    destruct (sort_by_key_nonempty (name :: names)) as [latest ->]; [done|].
    by exists latest.
  - intros e w' evs H.
    destruct (fs w !! path) as [[names|errno]|] eqn:Hdir.
    + destruct names as [|name names].
      * cbn in H. simplify_eq. repeat split; try done. right. by left.
      * destruct (sort_by_key_nonempty (name :: names)) as [latest Hlast]; [done|].
        by rewrite Hlast in H.
    + simplify_eq. repeat split; try done. right. right. by exists errno.
    + simplify_eq. repeat split; try done. by left.
Qed.

End Locator.

(** ** Time arguments, tags and trainer arguments *)

Lemma pretty_N_go_no_sep (x : N) (s : string) :
  occurs "_" s = false → occurs "_" (pretty_N_go x s) = false.
Proof.
  revert s. induction (N.lt_wf_0 x) as [x _ IH]; intros s Hs.
  assert (x = 0 ∨ 0 < x)%N as [->|Hpos] by lia.
  - by rewrite pretty_N_go_0.
  - rewrite pretty_N_go_step by done. apply IH.
    { by apply N.div_lt. }
    simpl. rewrite Hs. unfold pretty_N_char. by repeat case_match.
Qed.

Lemma pretty_positive_no_sep (p : positive) : occurs "_" (pretty p) = false.
Proof.
  unfold pretty, pretty_positive, pretty, pretty_N.
  case_decide; [done|]. by apply pretty_N_go_no_sep.
Qed.

(** The decimal form of an [int] has no underscore. *)
Lemma str_no_sep (n : Z) : occurs "_" (str n) = false.
Proof.
  unfold str, pretty, pretty_Z. destruct n as [|p|p]; [done|..].
  - apply pretty_positive_no_sep.
  - simpl. apply pretty_positive_no_sep.
Qed.

(** Two strings that agree up to their first separator agree piecewise. *)
Lemma app_sep_inj c s s' r r' :
  occurs c s = false → occurs c s' = false →
  s +:+ String c r = s' +:+ String c r' → s = s' ∧ r = r'.
Proof.
  revert s'. induction s as [|a s IH]; intros [|a' s']; simpl.
  - intros _ _. by intros [= ->].
  - intros _ [Ha _]%orb_false_elim. apply bool_decide_eq_false in Ha.
    by intros [= <- _].
  - intros [Ha _]%orb_false_elim _. apply bool_decide_eq_false in Ha.
    by intros [= -> _].
  - intros [_ Hs]%orb_false_elim [_ Hs']%orb_false_elim [= -> Heq].
    destruct (IH s' Hs Hs' Heq) as [-> ->]. done.
Qed.

(** A tag determines the ability value and whether the time argument was
    empty. *)
Lemma gen_param_str_inj a a' ts t t' :
  gen_param_str a ts t = gen_param_str a' ts t' → a = a' ∧ truthy t = truthy t'.
Proof.
  unfold gen_param_str. intros Heq.
  apply app_sep_inj in Heq as [Ha Hrest]; [|apply str_no_sep..].
  split; [by apply (inj (pretty : Z → string)) in Ha|].
  destruct (truthy t), (truthy t'); done.
Qed.

Section TimeArguments.

Context {point : Type}.

Local Abbreviation get_time := (get_time_arguments (point := point)).

(** The value [get_time_arguments] returns is one of three lists. *)
Lemma get_time_arguments_cases (arguments : Namespace) (w : world) :
  ∃ time_arguments evs,
    get_time arguments w = (Ok time_arguments, w, evs)
    ∧ (time_arguments = [""; "-z"] ∨ time_arguments = ["-z"] ∨ time_arguments = [""]).
Proof.
  unfold get_time_arguments. repeat case_decide; cbn; eauto 8.
Qed.

(** C6.  [get_time_arguments] returns on every time mode and never raises:
    [with_time] gives the empty argument alone, [without_time] gives [-z]
    alone, [with_and_without_time] gives the empty argument and then [-z],
    and any other string gives the empty argument alone after printing two
    warning lines.  The three recognised modes print nothing. *)
Theorem get_time_arguments_total (arguments : Namespace) (w : world) :
  (time arguments = "with_time" →
     get_time arguments w = (Ok [""], w, []))
  ∧ (time arguments = "without_time" →
     get_time arguments w = (Ok ["-z"], w, []))
  ∧ (time arguments = "with_and_without_time" →
     get_time arguments w = (Ok [""; "-z"], w, []))
  ∧ (time arguments ≠ "with_time" →
     time arguments ≠ "without_time" →
     time arguments ≠ "with_and_without_time" →
     get_time arguments w =
       (Ok [""], w,
        [EvPrint "Invalid argument selected for --time";
         EvPrint "Choosing default behavior - with time"]))
  ∧ (∃ time_arguments evs, get_time arguments w = (Ok time_arguments, w, evs)).
Proof.
  unfold get_time_arguments. repeat split.
  - by intros ->.
  - by intros ->.
  - by intros ->.
  - intros H1 H2 H3. by rewrite !decide_False.
  - repeat case_decide; cbn; eauto.
Qed.

End TimeArguments.

(** C1.  The tag is the ability value, a time label and the timestamp joined
    by underscores, and the label follows the truth value of the time
    argument: the empty argument, which is the one produced for [with_time],
    is labelled [no_time], and [-z], the one produced for [without_time], is
    labelled [time]. *)
Theorem gen_param_str_label (abilities : Z) (datetime_str : string) :
  gen_param_str abilities datetime_str "" =
    str abilities +:+ "_" +:+ "no_time" +:+ "_" +:+ datetime_str
  ∧ gen_param_str abilities datetime_str "-z" =
    str abilities +:+ "_" +:+ "time" +:+ "_" +:+ datetime_str
  ∧ time_included ""
  ∧ gen_param_str 1 "2015_06_01_12_30" "" = "1_no_time_2015_06_01_12_30".
Proof. done. Qed.

(** ** Running the script: inversion of the monad and of the loops *)

Section Runs.

Context {point : Type} (ext : collaborators point).

Local Abbreviation M := (M point).
Local Abbreviation locals := (locals point).
Local Abbreviation event := (event point).

Lemma bind_ok_inv {A B} (m : M A) (k : A → M B) w b w' evs :
  bind m k w = (Ok b, w', evs) →
  ∃ a w1 evs1 evs2,
    m w = (Ok a, w1, evs1) ∧ k a w1 = (Ok b, w', evs2) ∧ evs = evs1 ++ evs2.
Proof.
  unfold bind. destruct (m w) as [[[a|e] w1] evs1]; [|done].
  destruct (k a w1) as [[r w2] evs2] eqn:Hk. intros [= -> -> <-].
  by exists a, w1, evs1, evs2.
Qed.

Lemma bind_run {A B} (m : M A) (k : A → M B) w r w' evs :
  bind m k w = (r, w', evs) →
  (∃ e, r = Raise e ∧ m w = (Raise e, w', evs))
  ∨ (∃ a w1 evs1 evs2,
       m w = (Ok a, w1, evs1) ∧ k a w1 = (r, w', evs2) ∧ evs = evs1 ++ evs2).
Proof.
  unfold bind. destruct (m w) as [[[a|e] w1] evs1].
  - destruct (k a w1) as [[r2 w2] evs2] eqn:Hk. intros [= <- <- <-].
    right. by exists a, w1, evs1, evs2.
  - intros [= <- <- <-]. left. by exists e.
Qed.

Lemma for_each_app {A S} (l1 l2 : list A) (body : A → S → M S) s w :
  for_each (l1 ++ l2) body s w = bind (for_each l1 body s) (for_each l2 body) w.
Proof.
  revert s w. induction l1 as [|x l1 IH]; intros s w; simpl.
  - unfold bind, ret. by destruct (for_each l2 body s w) as [[r w2] evs2].
  - unfold bind. destruct (body x s w) as [[[s1|e] w1] evs1]; [|done].
    rewrite IH. unfold bind.
    destruct (for_each l1 body s1 w1) as [[[s2|e] w2] evs2]; [|done].
    destruct (for_each l2 body s2 w2) as [[r w3] evs3].
    by rewrite app_assoc.
Qed.

(** A loop that ends normally ran its last iteration normally, from the
    state the earlier iterations left. *)
Lemma for_each_snoc_ok {A S} (l : list A) x (body : A → S → M S) s w s' w' evs :
  for_each (l ++ [x]) body s w = (Ok s', w', evs) →
  ∃ s1 w1 evs1 evs2,
    for_each l body s w = (Ok s1, w1, evs1)
    ∧ body x s1 w1 = (Ok s', w', evs2)
    ∧ evs = evs1 ++ evs2.
Proof.
  rewrite for_each_app. intros (s1 & w1 & evs1 & evs2 & H1 & H2 & ->)%bind_ok_inv.
  simpl in H2. apply bind_ok_inv in H2 as (s2 & w2 & evs3 & evs4 & H2 & [= -> -> <-] & ->).
  exists s1, w1, evs1, evs3. by rewrite app_nil_r.
Qed.

(** What a loop leaves in a projection of the trace: the projections of its
    iterations, one after the other, cut short only by an exception. *)
Lemma for_each_omap {A S B} (f : event → option B) (g : A → list B)
    (body : A → S → M S) :
  (∀ x s w r w' evs, body x s w = (r, w', evs) →
     omap f evs `prefix_of` g x ∧ (∀ s', r = Ok s' → omap f evs = g x)) →
  ∀ l s w r w' evs, for_each l body s w = (r, w', evs) →
     omap f evs `prefix_of` (l ≫= g) ∧ (∀ s', r = Ok s' → omap f evs = l ≫= g).
Proof.
  intros Hbody. induction l as [|x l IH]; intros s w r w' evs; simpl.
  - by intros [= <- <- <-].
  - intros [(e & -> & Hx)|(s1 & w1 & evs1 & evs2 & Hx & Hl & ->)]%bind_run.
    + apply Hbody in Hx as [Hpre _]. split; [|done]. by apply prefix_app_r.
    + apply Hbody in Hx as [_ Hx]. apply IH in Hl as [Hpre Hl].
      rewrite omap_app, (Hx s1 eq_refl). split.
      * by apply prefix_app.
      * intros s' ->. by rewrite (Hl s' eq_refl).
Qed.

Lemma grid_length (abilities : list Z) (time_arguments : list string) :
  length (grid abilities time_arguments)
  = (length abilities * length time_arguments)%nat.
Proof.
  assert (∀ a : Z, length (time_arguments ≫= λ t, [(a, t)]) = length time_arguments)
    as Hrow.
  { intros a. induction time_arguments as [|t time_arguments IH]; [done|].
    rewrite bind_cons, length_app, IH. done. }
  unfold grid. induction abilities as [|a abilities IH]; [done|].
  rewrite bind_cons, length_app, IH, Hrow. simpl. lia.
Qed.

Lemma grid_last (abilities : list Z) (time_arguments : list string) a t :
  last abilities = Some a → last time_arguments = Some t →
  last (grid abilities time_arguments) = Some (a, t).
Proof.
  intros [abilities' ->]%last_Some [time_arguments' ->]%last_Some.
  unfold grid. rewrite bind_app. cbn. rewrite app_nil_r, bind_app. cbn.
  by rewrite app_assoc, last_snoc.
Qed.

End Runs.

(** ** The grid and its tags *)

Lemma elem_of_grid (abilities : list Z) (tas : list string) a t :
  (a, t) ∈ grid abilities tas ↔ a ∈ abilities ∧ t ∈ tas.
Proof.
  unfold grid. rewrite list_elem_of_bind. split.
  - intros (a' & (t' & [= -> ->]%list_elem_of_singleton & Ht)%list_elem_of_bind & Ha). done.
  - intros [Ha Ht]. exists a. split; [|done].
    apply list_elem_of_bind. exists t. split; [|done]. by apply list_elem_of_singleton.
Qed.

Lemma grid_NoDup (abilities : list Z) (tas : list string) :
  NoDup abilities → NoDup tas → NoDup (grid abilities tas).
Proof.
  intros Ha Ht. unfold grid. apply NoDup_bind; [| |done].
  - intros a1 a2 [a t] _ _.
    intros (t1 & [= -> ->]%list_elem_of_singleton & _)%list_elem_of_bind.
    by intros (t2 & [= -> ->]%list_elem_of_singleton & _)%list_elem_of_bind.
  - intros a _. apply NoDup_bind; [| |done].
    + intros t1 t2 [a' t'] _ _.
      intros [= -> ->]%list_elem_of_singleton.
      by intros [= ->]%list_elem_of_singleton.
    + intros t _. apply NoDup_singleton.
Qed.

(** The cell at row [i] and column [j] of the grid. *)
Lemma grid_lookup (abilities : list Z) (tas : list string) (i j : nat) a t :
  abilities !! i = Some a → tas !! j = Some t →
  grid abilities tas !! (i * length tas + j)%nat = Some (a, t).
Proof.
  assert (∀ a0 : Z, length (tas ≫= λ t0, [(a0, t0)]) = length tas) as Hlen.
  { intros a0. clear. induction tas as [|t0 tas IH]; [done|].
    by rewrite bind_cons, length_app, IH. }
  assert (∀ a0 : Z, tas !! j = Some t → (tas ≫= λ t0, [(a0, t0)]) !! j = Some (a0, t))
    as Hrow.
  { intros a0. clear. revert j. induction tas as [|t0 tas IH]; intros [|j]; try done.
    - by intros [= ->].
    - cbn. apply IH. }
  unfold grid. revert i. induction abilities as [|a0 abilities IH]; intros [|i]; try done.
  - intros [= ->] Ht. rewrite bind_cons, lookup_app_l.
    + by apply Hrow.
    + rewrite Hlen. by apply lookup_lt_Some in Ht.
  - cbn [lookup list_lookup]. intros Ha Ht. rewrite bind_cons, lookup_app_r.
    + rewrite Hlen. replace (S i * length tas + j - length tas)%nat
        with (i * length tas + j)%nat by lia.
      by apply IH.
    + rewrite Hlen. lia.
Qed.

(** ** The train and evaluate loop *)

Section Loop.

Context {point : Type} (ext : collaborators point).

Local Abbreviation M := (M point).
Local Abbreviation locals := (locals point).
Local Abbreviation event := (event point).

Lemma get_time_arguments_run (arguments : Namespace) :
  ∃ time_arguments,
    (time_arguments = [""; "-z"] ∨ time_arguments = ["-z"] ∨ time_arguments = [""])
    ∧ ∀ w : world, ∃ printed,
        get_time_arguments (point := point) arguments w = (Ok time_arguments, w, printed)
        ∧ Forall (λ ev, ∃ line, ev = EvPrint line) printed.
Proof.
  unfold get_time_arguments. repeat case_decide.
  - exists [""; "-z"]. split; [auto|]. intros w. exists []. by split.
  - exists ["-z"]. split; [auto|]. intros w. exists []. by split.
  - exists [""]. split; [auto|]. intros w. exists []. by split.
  - exists [""]. split; [auto|]. intros w. eexists. split; [done|].
    repeat constructor; by eexists.
Qed.

Lemma call_run {A} (ev : event) (f : world → result A * world) w r w' evs :
  call ev f w = (r, w', evs) → f w = (r, w') ∧ evs = [ev].
Proof. unfold call. destruct (f w) as [r1 w1]. by intros [= <- <- <-]. Qed.

Lemma generate_model_trace arguments a t ts w r w' evs :
  generate_model_with_parameters ext arguments a t ts w = (r, w', evs) →
  let cell := (a, t) in
  let made := EvMkdir (PathStr (cell_out_dir arguments ts cell)) in
  let trained := EvTrain (cell_train_params arguments ts cell) in
  (∃ e, r = Raise e ∧ evs = [made]) ∨ evs = [made; trained].
Proof.
  unfold generate_model_with_parameters, cell_out_dir, cell_train_params. cbn.
  intros [(e & -> & [_ ->]%call_run)
         |(u & w1 & evs1 & evs2 & [_ ->]%call_run & [_ ->]%call_run & ->)]%bind_run.
  - left. by exists e.
  - by right.
Qed.

Lemma generate_roc_trace arguments a t ts w r w' evs :
  generate_roc_curve_from_model ext arguments a t ts w = (r, w', evs) →
  let cell := (a, t) in
  ((∃ e, r = Raise e) ∧ evs = [])
  ∨ (∃ ckpt, evs = [EvSimulate ckpt (cell_roc_file arguments ts cell)
                      (model_directory arguments +:+ "test.responses") r]).
Proof.
  unfold generate_roc_curve_from_model, cell_roc_file. cbn.
  intros [(e & -> & [_ ->]%get_latest_readonly)
         |(ckpt & w1 & evs1 & evs2 & [_ ->]%get_latest_readonly & Hsim & ->)]%bind_run.
  - left. split; [by exists e|done].
  - right. exists ckpt. unfold simulate in Hsim.
    destruct (load_and_simulate_assessment ext _ _ _ w1) as [r1 w2].
    by injection Hsim as <- <- <-.
Qed.

(** One grid cell: the directory is made, the trainer is called, the latest
    checkpoint is looked up and evaluated; whatever fails ends the cell. *)
Lemma cell_body_trace arguments a ts t (vars : locals) w r w' evs :
  cell_body ext arguments a ts t vars w = (r, w', evs) →
  let cell := (a, t) in
  let made := EvMkdir (PathStr (cell_out_dir arguments ts cell)) in
  let trained := EvTrain (cell_train_params arguments ts cell) in
  let evaluated ckpt returned :=
    EvSimulate ckpt (cell_roc_file arguments ts cell)
      (model_directory arguments +:+ "test.responses") returned in
  (∃ e, r = Raise e
        ∧ (evs = [made] ∨ evs = [made; trained]
           ∨ ∃ ckpt, evs = [made; trained; evaluated ckpt (Raise e)]))
  ∨ (∃ c ckpt,
        r = Ok (mkLocals (Some t) (Some c) (v_params vars) (v_model vars))
        ∧ evs = [made; trained; evaluated ckpt (Ok c)]).
Proof.
  unfold cell_body. cbn zeta.
  intros [(e & -> & Hgen)|(u & w1 & evs1 & evs2 & Hgen & Hrest & ->)]%bind_run;
    apply generate_model_trace in Hgen; cbv zeta in Hgen.
  - left. exists e. split; [done|].
    destruct Hgen as [(e' & _ & ->)| ->]; auto.
  - destruct Hgen as [(e' & Hraise & _)| ->]; [done|].
    apply bind_run in Hrest
      as [(e & -> & Hroc)|(c & w2 & evs3 & evs4 & Hroc & [= <- <- <-] & ->)];
      apply generate_roc_trace in Hroc; cbv zeta in Hroc.
    + left. exists e. split; [done|].
      destruct Hroc as [(_ & ->)|(ckpt & ->)]; eauto.
    + right. destruct Hroc as [([e Hraise] & _)|(ckpt & ->)]; [done|].
      exists c, ckpt. by rewrite app_nil_r.
Qed.

Lemma read_local_run {A} name (v : option A) w (r : result A) w' (evs : list event) :
  read_local name v w = (r, w', evs) → w' = w ∧ evs = [].
Proof. destruct v; cbn; by intros [= <- <- <-]. Qed.

(** What follows the inner loop (lines 221-223) calls no collaborator. *)
Lemma ability_tail_run arguments ts a (vars : locals) w r w' (evs : list event) :
  (time <- read_local "time" (v_time vars) ;;
   model <- get_latest_parameter_file_name
              (model_directory arguments +:+ gen_param_str a ts time +:+ "/") ;;
   ret (mkLocals (v_time vars) (v_roc_curve vars)
          (Some (gen_param_str a ts time)) (Some model))) w = (r, w', evs) →
  w' = w ∧ evs = [].
Proof.
  intros [(e & -> & [-> ->]%read_local_run)
         |(t & w1 & evs1 & evs2 & [-> ->]%read_local_run & Hrest & ->)]%bind_run;
    [done|].
  apply bind_run in Hrest
    as [(e & -> & [-> ->]%get_latest_readonly)
       |(m & w2 & evs3 & evs4 & [-> ->]%get_latest_readonly & [= <- <- <-] & ->)];
    done.
Qed.

Lemma grid_fmap {B} (h : Z * string → B) (abilities : list Z) (tas : list string) :
  abilities ≫= (λ a, tas ≫= λ t, [h (a, t)]) = h <$> grid abilities tas.
Proof.
  unfold grid. induction abilities as [|a abilities IH]; [done|].
  rewrite !bind_cons, fmap_app, IH. f_equal.
  clear. induction tas as [|t tas IH]; [done|].
  rewrite !bind_cons, fmap_app, IH. done.
Qed.

Section Projection.

(** A projection of the trace that sees nothing of what is printed and
    exactly one item per completed cell. *)
Context {B : Type} (f : event → option B) (h : Z * string → B).
Context (arguments : Namespace) (ts : string).
Hypothesis f_print : ∀ line, f (EvPrint line) = None.
Hypothesis f_cell : ∀ a t (vars : locals) w r w' evs,
  cell_body ext arguments a ts t vars w = (r, w', evs) →
  omap f evs `prefix_of` [h (a, t)] ∧ (∀ vars', r = Ok vars' → omap f evs = [h (a, t)]).

Lemma omap_printed (printed : list event) :
  Forall (λ ev, ∃ line, ev = EvPrint line) printed → omap f printed = [].
Proof.
  induction 1 as [|ev printed [line ->] _ IH]; [done|].
  cbn. by rewrite f_print.
Qed.

Lemma ability_body_omap (tas : list string) a (vars : locals) w r w' evs :
  (∀ w0 : world, ∃ printed,
      get_time_arguments (point := point) arguments w0 = (Ok tas, w0, printed)
      ∧ Forall (λ ev, ∃ line, ev = EvPrint line) printed) →
  ability_body ext arguments ts a vars w = (r, w', evs) →
  omap f evs `prefix_of` (tas ≫= λ t, [h (a, t)])
  ∧ (∀ vars', r = Ok vars' → omap f evs = tas ≫= λ t, [h (a, t)]).
Proof.
  intros Htime. destruct (Htime w) as (printed & Hget & Hprinted).
  unfold ability_body.
  intros [(e & -> & Hraise)|(tas' & w1 & evs1 & evs2 & Hget' & Hrest & ->)]%bind_run.
  { rewrite Hget in Hraise. done. }
  rewrite Hget in Hget'. injection Hget' as <- <- <-.
  rewrite omap_app, (omap_printed _ Hprinted). cbn [app].
  apply bind_run in Hrest
    as [(e & -> & Hloop)|(vars1 & w2 & evs3 & evs4 & Hloop & Htail & ->)].
  - eapply (for_each_omap f (λ t, [h (a, t)])) in Hloop as [Hpre _]; [|by eauto].
    by split.
  - eapply (for_each_omap f (λ t, [h (a, t)])) in Hloop as [_ Hloop]; [|by eauto].
    apply ability_tail_run in Htail as [_ ->].
    rewrite app_nil_r, (Hloop vars1 eq_refl). by split.
Qed.

Lemma train_loop_omap (tas : list string) (vars : locals) w r w' evs :
  (∀ w0 : world, ∃ printed,
      get_time_arguments (point := point) arguments w0 = (Ok tas, w0, printed)
      ∧ Forall (λ ev, ∃ line, ev = EvPrint line) printed) →
  train_loop ext arguments ts vars w = (r, w', evs) →
  omap f evs `prefix_of` (h <$> grid (abilities arguments) tas)
  ∧ (∀ vars', r = Ok vars' → omap f evs = h <$> grid (abilities arguments) tas).
Proof.
  intros Htime Hloop. rewrite <- grid_fmap. unfold train_loop in Hloop.
  eapply (for_each_omap f (λ a, tas ≫= λ t, [h (a, t)])); [|exact Hloop].
  intros a vars0 w0 r0 w0' evs0. by apply ability_body_omap.
Qed.

End Projection.

(** C5.  The loop asks [get_time_arguments] for the time arguments, which
    are the same on every call, and visits the grid of the ability values
    and those arguments in order, abilities outside and time arguments
    inside.  The trainer calls and the evaluator calls it makes are those of
    the cells of the grid, one per cell and in grid order, up to the cell
    where an exception ends the run; when the loop ends normally they are
    those of all [m * k] cells. *)
Theorem train_loop_visits_grid
    (arguments : Namespace) (datetime_str : string) (vars : locals) (w : world) :
  ∃ time_arguments,
    (∀ w0 : world, ∃ printed,
        get_time_arguments (point := point) arguments w0
        = (Ok time_arguments, w0, printed))
    ∧ let cells := grid (abilities arguments) time_arguments in
      let '(r, _, evs) := train_loop ext arguments datetime_str vars w in
      length cells = (length (abilities arguments) * length time_arguments)%nat
      ∧ (∀ i j a t,
           abilities arguments !! i = Some a → time_arguments !! j = Some t →
           cells !! (i * length time_arguments + j)%nat = Some (a, t))
      ∧ train_calls evs `prefix_of` (cell_train_params arguments datetime_str <$> cells)
      ∧ simulate_calls evs `prefix_of` (cell_roc_file arguments datetime_str <$> cells)
      ∧ (∀ vars', r = Ok vars' →
           train_calls evs = cell_train_params arguments datetime_str <$> cells
           ∧ simulate_calls evs = cell_roc_file arguments datetime_str <$> cells
           ∧ length (train_calls evs)
             = (length (abilities arguments) * length time_arguments)%nat).
Proof.
  destruct (get_time_arguments_run arguments) as (tas & _ & Htime).
  exists tas. split.
  { intros w0. destruct (Htime w0) as (printed & Hget & _). by exists printed. }
  cbv zeta.
  destruct (train_loop ext arguments datetime_str vars w) as [[r w'] evs] eqn:Hloop.
  split; [apply grid_length|]. split; [intros i j a t; apply grid_lookup|].
  assert (train_calls evs `prefix_of` (cell_train_params arguments datetime_str <$> grid (abilities arguments) tas)
          ∧ (∀ vars', r = Ok vars' →
               train_calls evs = cell_train_params arguments datetime_str <$> grid (abilities arguments) tas))
    as [Htrain_pre Htrain].
  { eapply train_loop_omap; [done| |exact Htime|exact Hloop].
    intros a t vars0 w0 r0 w0' evs0 Hcell.
    apply cell_body_trace in Hcell. cbv zeta in Hcell.
    destruct Hcell as [(e & -> & [->|[->|[ckpt ->]]])|(c & ckpt & -> & ->)];
      cbn; split; try done; apply prefix_nil. }
  assert (simulate_calls evs `prefix_of` (cell_roc_file arguments datetime_str <$> grid (abilities arguments) tas)
          ∧ (∀ vars', r = Ok vars' →
               simulate_calls evs = cell_roc_file arguments datetime_str <$> grid (abilities arguments) tas))
    as [Hsim_pre Hsim].
  { eapply train_loop_omap; [done| |exact Htime|exact Hloop].
    intros a t vars0 w0 r0 w0' evs0 Hcell.
    apply cell_body_trace in Hcell. cbv zeta in Hcell.
    destruct Hcell as [(e & -> & [->|[->|[ckpt ->]]])|(c & ckpt & -> & ->)];
      cbn; split; try done; apply prefix_nil. }
  split; [done|]. split; [done|].
  intros vars' Hr. rewrite (Htrain _ Hr), (Hsim _ Hr).
  by rewrite length_fmap, grid_length.
Qed.

(** When the loop over a non-empty ability list ends normally, the local
    variables it leaves are those of the last cell of the grid (last ability
    value, last time argument), whatever they held before: the tag of that
    cell, the curve returned by the evaluation of that cell, which is the
    last thing the loop did, and the latest checkpoint of that cell's
    directory as it stands at the end of the loop. *)
Lemma train_loop_leaves_last_cell
    (arguments : Namespace) (datetime_str : string)
    (vars vars' : locals) (w w' : world) (evs : list event) :
  abilities arguments ≠ [] →
  train_loop ext arguments datetime_str vars w = (Ok vars', w', evs) →
  ∃ a t time_arguments c m ckpt evs0,
    last (abilities arguments) = Some a
    ∧ (∀ w0 : world, ∃ printed,
         get_time_arguments (point := point) arguments w0
         = (Ok time_arguments, w0, printed))
    ∧ last time_arguments = Some t
    ∧ last (grid (abilities arguments) time_arguments) = Some (a, t)
    ∧ vars' = mkLocals (Some t) (Some c)
                (Some (gen_param_str a datetime_str t)) (Some m)
    ∧ evs = evs0 ++ [EvSimulate ckpt (cell_roc_file arguments datetime_str (a, t))
                       (model_directory arguments +:+ "test.responses") (Ok c)]
    ∧ get_latest_parameter_file_name (point := point)
        (cell_out_dir arguments datetime_str (a, t)) w' = (Ok m, w', [])
    ∧ (∀ w2, visualize_stage ext vars' w2 =
             (print ("visualizing for " +:+ m) ;;
              call (EvShowRoc {[ gen_param_str a datetime_str t := c ]})
                (show_roc ext {[ gen_param_str a datetime_str t := c ]}) ;;
              call (EvShowExercises m) (show_exercises ext m)) w2)
    ∧ (∀ w2, test_stage ext vars' w2 =
             call (EvAdaptiveTest m) (adaptive_pretest_main ext m) w2).
Proof.
  intros Hne Hloop.
  destruct (get_time_arguments_run arguments) as (tas & Hcases & Htime).
  apply last_is_Some in Hne as [a Ha].
  assert (∃ t, last tas = Some t) as [t Ht].
  { destruct Hcases as [->|[->| ->]]; by eexists. }
  pose proof Ha as [abilities' Habilities]%last_Some.
  pose proof Ht as [tas' ->]%last_Some.
  unfold train_loop in Hloop. rewrite Habilities in Hloop.
  apply for_each_snoc_ok in Hloop as (vars1 & w1 & evs1 & evs2 & _ & Hbody & ->).
  unfold ability_body in Hbody.
  apply bind_ok_inv in Hbody as (tas0 & w2 & printed & evs3 & Hget & Hbody & ->).
  destruct (Htime w1) as (printed' & Hget' & _).
  rewrite Hget' in Hget. injection Hget as <- <- <-.
  apply bind_ok_inv in Hbody as (vars2 & w3 & evs4 & evs5 & Hinner & Htail & ->).
  apply for_each_snoc_ok in Hinner as (vars3 & w4 & evs6 & evs7 & _ & Hcell & ->).
  apply cell_body_trace in Hcell. cbv zeta in Hcell.
  destruct Hcell as [(e & [=] & _)|(c & ckpt & [= ->] & ->)].
  cbn [v_time] in Htail.
  apply bind_ok_inv in Htail as (t0 & w5 & evs8 & evs9 & [= <- <- <-] & Htail & ->).
  apply bind_ok_inv in Htail as (m & w6 & evs10 & evs11 & Hlatest & [= <- <- <-] & ->).
  pose proof Hlatest as [-> ->]%get_latest_readonly.
  exists a, t, (tas' ++ [t]), c, m, ckpt.
  eexists (evs1 ++ printed' ++ evs6 ++ [_; _]).
  split; [done|]. split.
  { intros w0. destruct (Htime w0) as (p0 & Hp0 & _). by exists p0. }
  split; [done|]. split; [by apply grid_last|]. split; [done|]. split.
  { rewrite !app_nil_r. cbn [app]. by rewrite <- !app_assoc. }
  split; [exact Hlatest|]. split.
  - intros w2. unfold visualize_stage, bind, read_local, ret, print, call. cbn.
    destruct (show_roc ext _ w2) as [[[]|e] w7]; [|done].
    by destruct (show_exercises ext m w7) as [r8 w8].
  - intros w2. unfold test_stage, bind, read_local, ret, call. cbn.
    by destruct (adaptive_pretest_main ext m w2) as [r7 w7].
Qed.

End Loop.

(** ** The stages of [run_with_arguments] *)

Section Stages.

Context {point : Type} (ext : collaborators point).

Local Abbreviation event := (event point).

(** C7, as the code has it.  The trainer receives the ten base tokens, and
    one more token exactly when the time argument of the cell is not empty;
    the extra token is the time argument itself.  So the cell with time
    included (the empty argument) adds nothing and the cell with time
    excluded adds its [-z].  Every trainer call of
    [generate_model_with_parameters] carries exactly this list. *)
Theorem mirt_train_params_marker
    (arguments : Namespace) (abilities : Z) (time datetime_str : string) (w : world) :
  let out_dir_name := cell_out_dir arguments datetime_str (abilities, time) in
  let base := base_train_params arguments abilities out_dir_name in
  let sent := mirt_train_params arguments abilities time out_dir_name in
  ((∃ marker, sent = base ++ [marker]) ↔ ¬ time_included time)
  ∧ (¬ time_included time → sent = base ++ [time])
  ∧ (time_included time → sent = base)
  ∧ (∀ p, EvTrain p ∈
            (generate_model_with_parameters ext arguments abilities time datetime_str w).2
          → p = sent).
Proof.
  cbv zeta. split; [|split; [|split]].
  - unfold mirt_train_params, base_train_params, time_included.
    destruct time as [|c time]; cbn; split; try done.
    + by intros [marker [=]].
    + intros _. by eexists.
  - unfold mirt_train_params, time_included. by destruct time.
  - unfold time_included. by intros ->.
  - intros p.
    destruct (generate_model_with_parameters ext arguments abilities time datetime_str w)
      as [[r w'] evs] eqn:Hgen.
    apply generate_model_trace in Hgen. cbv zeta in Hgen. cbn [snd].
    destruct Hgen as [(e & _ & ->)| ->].
    + by intros [=]%list_elem_of_singleton.
    + intros [[=]|[= ->]%list_elem_of_singleton]%elem_of_cons. done.
Qed.

(** C9.  With only [--generate] set, the run is the call of the data
    generator and nothing else: its outcome and the world it leaves are the
    generator's, and the trace holds that one call: no directory is made and
    neither the splitter, the trainer, the evaluator, the visualisation nor
    the adaptive test is called, and nothing is printed. *)
Theorem generate_only_runs_generator (arguments : Namespace) (w : world) :
  generate arguments = true →
  train arguments = false →
  visualize arguments = false →
  test arguments = false →
  ∃ r w',
    generate_responses_run ext arguments w = (r, w')
    ∧ run_with_arguments ext arguments w = (r, w', [EvGenerate arguments]).
Proof.
  intros Hg Ht Hv Hx. unfold run_with_arguments. rewrite Hg, Ht, Hv, Hx.
  unfold bind, call, ret.
  destruct (generate_responses_run ext arguments w) as [[[]|e] w'];
    eexists _, _; by split.
Qed.

(** C10.  With [--train] unset and [--visualize] or [--test] set, the run
    never ends normally and never reaches the visualisation or the adaptive
    test: it stops on the first read of the local variable [model], which
    only the train branch assigns.  The exception is that
    [UnboundLocalError], unless the data generator was requested as well and
    raised first.  The [--model] option plays no part: without [--generate]
    the run is the same for every value of it. *)
Theorem consumers_without_training_fail (arguments : Namespace) (w : world) :
  train arguments = false →
  visualize arguments = true ∨ test arguments = true →
  ∃ e w' evs,
    run_with_arguments ext arguments w = (Raise e, w', evs)
    ∧ Forall (λ ev, is_consumer_call ev = false) evs
    ∧ (e = UnboundLocalError "model"
       ∨ (generate arguments = true
          ∧ generate_responses_run ext arguments w = (Raise e, w')))
    ∧ (generate arguments = false →
         e = UnboundLocalError "model" ∧ w' = w ∧ evs = []
         ∧ ∀ path, run_with_arguments ext (set_model path arguments) w
                   = run_with_arguments ext arguments w).
Proof.
  intros Ht Hconsumer. unfold run_with_arguments. cbn [set_model generate train visualize test].
  rewrite Ht. destruct (generate arguments) eqn:Hg.
  - unfold bind, call, ret.
    destruct (generate_responses_run ext arguments w) as [[[]|e] w'] eqn:Hgen.
    + exists (UnboundLocalError "model"), w', [EvGenerate arguments].
      split; [|split; [by repeat constructor|split; [by left|done]]].
      destruct Hconsumer as [-> | ->]; [done|].
      by destruct (visualize arguments).
    + exists e, w', [EvGenerate arguments].
      split; [done|]. split; [by repeat constructor|]. split; [by right|done].
  - exists (UnboundLocalError "model"), w, [].
    assert (∀ args' : Namespace,
              visualize args' = visualize arguments → test args' = test arguments →
              (ret tt ;; vars <- ret unbound ;;
               (if visualize args' then visualize_stage ext vars else ret tt) ;;
               (if test args' then test_stage ext vars else ret tt)) w
              = (Raise (UnboundLocalError "model"), w, [])) as Hrun.
    { intros args' -> ->. unfold bind, ret.
      destruct Hconsumer as [-> | ->]; [done|].
      by destruct (visualize arguments). }
    split; [by apply Hrun|]. split; [done|]. split; [by left|].
    intros _. split; [done|]. split; [done|]. split; [done|].
    intros path. by rewrite (Hrun arguments).
Qed.

End Stages.

(** ** Distinct tags *)

Section Tags.

Context {point : Type}.

(** C8, as the code has it.  Under one run timestamp the tags of the grid of
    an ability list without repeated values and the time arguments
    [get_time_arguments] returns are pairwise distinct, and there are
    [m * k] of them. *)
Theorem tags_distinct_without_repeats
    (arguments : Namespace) (datetime_str : string)
    (w : world) (time_arguments : list string) (printed : list (event point)) :
  get_time_arguments arguments w = (Ok time_arguments, w, printed) →
  NoDup (abilities arguments) →
  NoDup (grid_tags datetime_str (grid (abilities arguments) time_arguments))
  ∧ length (grid_tags datetime_str (grid (abilities arguments) time_arguments))
    = (length (abilities arguments) * length time_arguments)%nat.
Proof.
  intros Hget Hnodup.
  destruct (get_time_arguments_cases (point := point) arguments w)
    as (tas & evs & Hget' & Hcases).
  rewrite Hget in Hget'. injection Hget' as -> _.
  assert (NoDup tas ∧ ∀ t, t ∈ tas → t = "" ∨ t = "-z") as [Htas Helem].
  { destruct Hcases as [->|[->| ->]]; (split; [by apply (bool_decide_unpack _)|]);
      intros t Ht; repeat (apply elem_of_cons in Ht as [->|Ht]); auto;
      by apply elem_of_nil in Ht. }
  split; [|unfold grid_tags; by rewrite length_fmap, grid_length].
  unfold grid_tags. apply NoDup_fmap_2_strong; [|by apply grid_NoDup].
  intros [a t] [a' t'] [_ Ht]%elem_of_grid [_ Ht']%elem_of_grid. cbn [fst snd].
  intros [-> Htruthy]%gen_param_str_inj. f_equal.
  destruct (Helem t Ht) as [-> | ->], (Helem t' Ht') as [-> | ->]; done.
Qed.

End Tags.

(** ** Concrete runs *)

(** C3 at the demonstration directory. *)
Lemma latest_file_has_greatest_suffix_witness :
  ∃ latest,
    get_latest_parameter_file_name (point := string) "models/run/"
      (mkWorld {[ "models/run/" := Dir demo_checkpoints ]} "2015_06_01_12_30")
    = (Ok ("models/run/" +:+ latest),
       mkWorld {[ "models/run/" := Dir demo_checkpoints ]} "2015_06_01_12_30", [])
    ∧ latest ∈ demo_checkpoints.
Proof.
  destruct (latest_file_has_greatest_suffix (point := string) "models/run/"
              (mkWorld {[ "models/run/" := Dir demo_checkpoints ]} "2015_06_01_12_30")
              demo_checkpoints)
    as [(latest & Hrun & _ & _ & _ & Hin & _ & _) _].
  - by vm_compute.
  - done.
  - by exists latest.
Defined.

(** The run used below: abilities 1 and 2, both time modes, all of train,
    visualize and test. *)
Lemma demo_run :
  run_with_arguments demo_ext
    (demo_arguments [1; 2] "with_and_without_time" false true true true) demo_world
  = (Ok tt,
     mkWorld
       (<["models/2_time_2015_06_01_12_30/" := Dir demo_checkpoints]>
          (<["models/2_no_time_2015_06_01_12_30/" := Dir demo_checkpoints]>
             (<["models/1_time_2015_06_01_12_30/" := Dir demo_checkpoints]>
                (<["models/1_no_time_2015_06_01_12_30/" := Dir demo_checkpoints]> ∅))))
       "2015_06_01_12_30",
     let arguments := demo_arguments [1; 2] "with_and_without_time" false true true true in
     let cell tag flag :=
       [EvMkdir (PathStr ("models/" +:+ tag +:+ "/"));
        EvTrain (["-a"; String.substring 0 1 tag; "-w"; "1"; "-n"; "100";
                  "-f"; "models/train.responses";
                  "-o"; "models/" +:+ tag +:+ "/"] ++ flag);
        EvSimulate ("models/" +:+ tag +:+ "/theta_9")
          ("models/rocs/" +:+ tag +:+ ".roc") "models/test.responses"
          (Ok ["models/" +:+ tag +:+ "/theta_9"; "models/rocs/" +:+ tag +:+ ".roc"])] in
     [EvMkdir (PathList ["models/rocs/"]); EvSplit arguments;
      EvPrint "Training MIRT models"]
     ++ cell "1_no_time_2015_06_01_12_30" []
     ++ cell "1_time_2015_06_01_12_30" ["-z"]
     ++ cell "2_no_time_2015_06_01_12_30" []
     ++ cell "2_time_2015_06_01_12_30" ["-z"]
     ++ [EvPrint "visualizing for models/2_time_2015_06_01_12_30/theta_9";
         EvShowRoc {[ "2_time_2015_06_01_12_30" :=
                        ["models/2_time_2015_06_01_12_30/theta_9";
                         "models/rocs/2_time_2015_06_01_12_30.roc"] ]};
         EvShowExercises "models/2_time_2015_06_01_12_30/theta_9";
         EvAdaptiveTest "models/2_time_2015_06_01_12_30/theta_9"]).
Proof. by vm_compute. Qed.

(** C4 as stated fails on a directory that exists, is not empty for all the
    script knows, and may not be read: the locator fails with
    [OSError] and [EACCES], which is neither of the two failures of the
    claim. *)
Lemma latest_file_unlistable_counterexample :
  let w := mkWorld {[ "models/run/" := Refused EACCES ]} "2015_06_01_12_30" in
  get_latest_parameter_file_name (point := string) "models/run/" w
  = (Raise (OSError EACCES "models/run/"), w, [])
  ∧ OSError EACCES "models/run/" ≠ OSError ENOENT "models/run/"
  ∧ OSError EACCES "models/run/" ≠ IndexError
  ∧ ¬ (∀ e w' evs,
         get_latest_parameter_file_name (point := string) "models/run/" w
         = (Raise e, w', evs) →
         fs w !! "models/run/" = None ∨ fs w !! "models/run/" = Some (Dir [])).
Proof.
  cbv zeta. split; [by vm_compute|]. split; [done|]. split; [done|].
  intros Honly.
  destruct (Honly (OSError EACCES "models/run/")
              (mkWorld {[ "models/run/" := Refused EACCES ]} "2015_06_01_12_30") [])
    as [Hmissing|Hempty].
  - by vm_compute.
  - vm_compute in Hmissing. discriminate Hmissing.
  - vm_compute in Hempty. discriminate Hempty.
Qed.

(** C4 at a directory that is not there and at one that is empty. *)
Lemma latest_file_failures_witness :
  get_latest_parameter_file_name (point := string) "models/none/" demo_world
  = (Raise (OSError ENOENT "models/none/"), demo_world, [])
  ∧ get_latest_parameter_file_name (point := string) "models/empty/"
      (mkWorld {[ "models/empty/" := Dir [] ]} "2015_06_01_12_30")
    = (Raise IndexError, mkWorld {[ "models/empty/" := Dir [] ]} "2015_06_01_12_30", []).
Proof.
  split.
  - apply (proj1 (latest_file_failures (point := string) "models/none/" demo_world)).
    by vm_compute.
  - apply (proj1 (proj2 (latest_file_failures (point := string) "models/empty/"
                           (mkWorld {[ "models/empty/" := Dir [] ]} "2015_06_01_12_30")))).
    by vm_compute.
Defined.

(** C6 at an unrecognised time mode. *)
Lemma get_time_arguments_total_witness :
  get_time_arguments (point := string)
    (demo_arguments [1] "sometimes" false true false false) demo_world
  = (Ok [""], demo_world,
     [EvPrint "Invalid argument selected for --time";
      EvPrint "Choosing default behavior - with time"]).
Proof.
  apply (get_time_arguments_total (point := string)
           (demo_arguments [1] "sometimes" false true false false) demo_world);
    by vm_compute.
Defined.

(** C7 as stated fails on the cell with time included: its time argument is
    empty and the trainer gets the ten base tokens with nothing appended. *)
Lemma marker_for_time_included_counterexample :
  let arguments := demo_arguments [1] "with_time" false true false false in
  let out_dir_name := "models/1_no_time_2015_06_01_12_30/" in
  get_time_arguments (point := string) arguments demo_world = (Ok [""], demo_world, [])
  ∧ mirt_train_params arguments 1 "" out_dir_name
    = ["-a"; "1"; "-w"; "1"; "-n"; "100"; "-f"; "models/train.responses";
       "-o"; "models/1_no_time_2015_06_01_12_30/"]
  ∧ ¬ ((∃ marker, mirt_train_params arguments 1 "" out_dir_name
                  = base_train_params arguments 1 out_dir_name ++ [marker])
       ↔ time_included "").
Proof.
  cbv zeta. split; [by vm_compute|]. split; [by vm_compute|].
  intros [_ Happended]. destruct (Happended eq_refl) as [marker Hsent].
  vm_compute in Hsent. discriminate Hsent.
Qed.

(** C7 at the cell with time excluded. *)
Lemma mirt_train_params_marker_witness :
  let arguments := demo_arguments [1] "without_time" false true false false in
  mirt_train_params arguments 1 "-z" (cell_out_dir arguments "2015_06_01_12_30" (1, "-z"))
  = ["-a"; "1"; "-w"; "1"; "-n"; "100"; "-f"; "models/train.responses";
     "-o"; "models/1_time_2015_06_01_12_30/"; "-z"].
Proof.
  cbv zeta.
  pose proof (mirt_train_params_marker demo_ext
                (demo_arguments [1] "without_time" false true false false)
                1 "-z" "2015_06_01_12_30" demo_world) as (_ & Hsent & _).
  cbv zeta in Hsent. rewrite Hsent by done. by vm_compute.
Defined.

(** C8 as stated fails on a repeated ability value: both cells of abilities
    [1; 1] under [with_time] get the same tag. *)
Lemma tags_with_repeated_ability_counterexample :
  let arguments := demo_arguments [1; 1] "with_time" false true false false in
  get_time_arguments (point := string) arguments demo_world = (Ok [""], demo_world, [])
  ∧ grid_tags "2015_06_01_12_30" (grid (abilities arguments) [""])
    = ["1_no_time_2015_06_01_12_30"; "1_no_time_2015_06_01_12_30"]
  ∧ ¬ NoDup (grid_tags "2015_06_01_12_30" (grid (abilities arguments) [""])).
Proof.
  cbv zeta. split; [by vm_compute|]. split; [by vm_compute|].
  intros [Hfresh _]%NoDup_cons. apply Hfresh. by apply list_elem_of_singleton.
Qed.

(** C8 at abilities 1 and 2 with both time modes. *)
Lemma tags_distinct_without_repeats_witness :
  NoDup (grid_tags "2015_06_01_12_30" (grid [1; 2] [""; "-z"])).
Proof.
  apply (tags_distinct_without_repeats (point := string)
           (demo_arguments [1; 2] "with_and_without_time" false true false false)
           "2015_06_01_12_30" demo_world [""; "-z"] []).
  - by vm_compute.
  - by apply (bool_decide_unpack _).
Defined.

(** C5 at abilities 1 and 2 with both time modes: four cells. *)
Lemma train_loop_visits_grid_witness :
  train_calls
    (train_loop demo_ext
       (demo_arguments [1; 2] "with_and_without_time" false true false false)
       "2015_06_01_12_30" unbound demo_world).2
  = cell_train_params
      (demo_arguments [1; 2] "with_and_without_time" false true false false)
      "2015_06_01_12_30" <$> [(1, ""); (1, "-z"); (2, ""); (2, "-z")].
Proof.
  destruct (train_loop_visits_grid demo_ext
              (demo_arguments [1; 2] "with_and_without_time" false true false false)
              "2015_06_01_12_30" unbound demo_world) as (tas & Htime & Hloop).
  destruct (Htime demo_world) as (printed & Hget).
  vm_compute in Hget. injection Hget as <- _.
  cbv zeta in Hloop.
  destruct (train_loop demo_ext _ _ unbound demo_world) as [[r w'] evs] eqn:Hrun.
  destruct Hloop as (_ & _ & _ & _ & Hok).
  destruct r as [vars'|e]; [|by vm_compute in Hrun].
  destruct (Hok vars' eq_refl) as (Htrain & _). exact Htrain.
Defined.

(** C9 at a run with only [--generate]. *)
Lemma generate_only_runs_generator_witness :
  run_with_arguments demo_ext
    (demo_arguments [1] "with_time" true false false false) demo_world
  = (Ok tt, demo_world,
     [EvGenerate (demo_arguments [1] "with_time" true false false false)]).
Proof.
  destruct (generate_only_runs_generator demo_ext
              (demo_arguments [1] "with_time" true false false false) demo_world)
    as (r & w' & Hgen & Hrun); [done..|].
  injection Hgen as <- <-. exact Hrun.
Defined.

(** C10 at a run with only [--test]. *)
Lemma consumers_without_training_fail_witness :
  run_with_arguments demo_ext
    (demo_arguments [1] "with_time" false false false true) demo_world
  = (Raise (UnboundLocalError "model"), demo_world, []).
Proof.
  destruct (consumers_without_training_fail demo_ext
              (demo_arguments [1] "with_time" false false false true) demo_world)
    as (e & w' & evs & Hrun & _ & _ & Hplain); [done|by right|].
  destruct (Hplain eq_refl) as (-> & -> & -> & _). exact Hrun.
Defined.

(** ** Further properties of the script *)

(** *** Tags and paths across runs *)

Lemma string_length_app (s u : string) :
  String.length (s +:+ u) = (String.length s + String.length u)%nat.
Proof. induction s as [|c s IH]; [done|]. simpl. f_equal. exact IH. Qed.

Lemma string_app_inv_tail (s s' u : string) : s +:+ u = s' +:+ u → s = s'.
Proof.
  intros Heq.
  assert (String.length s = String.length s') as Hlen.
  { apply (f_equal String.length) in Heq. rewrite !string_length_app in Heq. lia. }
  revert s' Heq Hlen. induction s as [|c s IH]; intros [|c' s']; try done.
  cbn. intros [= -> Heq] [= Hlen]. f_equal. by apply IH.
Qed.

(** The tag keeps the ability value, the truth value of the time argument
    and the timestamp apart. *)
Lemma gen_param_str_inj_full a a' ts ts' t t' :
  gen_param_str a ts t = gen_param_str a' ts' t' →
  a = a' ∧ truthy t = truthy t' ∧ ts = ts'.
Proof.
  unfold gen_param_str. intros Heq.
  apply app_sep_inj in Heq as [Ha Hrest]; [|apply str_no_sep..].
  split; [by apply (inj (pretty : Z → string)) in Ha|].
  destruct (truthy t), (truthy t'); by simplify_eq/=.
Qed.

(** X1.  Two cells share a tag, an output directory or a curve file only
    when they have the same ability value, time arguments of the same truth
    value and the same timestamp.  So the artifacts of runs with different
    timestamps never coincide, whatever the ability lists. *)
Theorem artifacts_of_runs_apart
    (arguments : Namespace) (ts ts' : string) (cell cell' : Z * string) :
  ts ≠ ts' →
  gen_param_str cell.1 ts cell.2 ≠ gen_param_str cell'.1 ts' cell'.2
  ∧ cell_out_dir arguments ts cell ≠ cell_out_dir arguments ts' cell'
  ∧ cell_roc_file arguments ts cell ≠ cell_roc_file arguments ts' cell'
  ∧ (∀ ts0, cell_out_dir arguments ts0 cell = cell_out_dir arguments ts0 cell' →
            cell.1 = cell'.1 ∧ truthy cell.2 = truthy cell'.2).
Proof.
  intros Hts. split; [|split; [|split]].
  - by intros (_ & _ & ?)%gen_param_str_inj_full.
  - unfold cell_out_dir. intros Heq%(inj (String.append _)).
    by apply string_app_inv_tail, gen_param_str_inj_full in Heq as (_ & _ & ?).
  - unfold cell_roc_file. intros Heq%(inj (String.append _)).
    by apply string_app_inv_tail, gen_param_str_inj_full in Heq as (_ & _ & ?).
  - intros ts0. unfold cell_out_dir. intros Heq%(inj (String.append _)).
    by apply string_app_inv_tail, gen_param_str_inj_full in Heq as (? & ? & _).
Qed.

(** *** The derived flag and the time arguments *)

Section IncludeTime.

Context {point : Type}.

(** X2.  On a namespace whose [include_time] was derived as line 109 does,
    the flag agrees with the time arguments on the three modes
    [get_time_arguments] knows: it is set exactly when the empty argument
    (train with time) is among them.  On any other mode the two part: the
    flag is unset, yet the fallback trains with time. *)
Theorem include_time_and_time_arguments
    (arguments : Namespace) (w : world)
    (time_arguments : list string) (printed : list (event point)) :
  include_time arguments = derive_include_time (time arguments) →
  get_time_arguments arguments w = (Ok time_arguments, w, printed) →
  (recognised_mode (time arguments) →
     (include_time arguments = true ↔ "" ∈ time_arguments) ∧ printed = [])
  ∧ (¬ recognised_mode (time arguments) →
     include_time arguments = false ∧ time_arguments = [""] ∧ printed ≠ []).
Proof.
  intros -> Hget. unfold get_time_arguments in Hget.
  unfold recognised_mode, derive_include_time.
  revert Hget. generalize (time arguments). intros mode.
  destruct (decide (mode = "with_and_without_time")) as [->|Hboth].
  { cbn. intros [= <- <-]. split; [|tauto]. intros _. split; [|done].
    split; [intros _; left|done]. }
  destruct (decide (mode = "without_time")) as [->|Hwithout].
  { cbn. intros [= <- <-]. split; [|tauto]. intros _. split; [|done].
    split; [done|]. by intros [=]%list_elem_of_singleton. }
  destruct (decide (mode = "with_time")) as [->|Hwith].
  { cbn. intros [= <- <-]. split; [|tauto]. intros _. split; [|done].
    split; [intros _; left|done]. }
  cbn. intros [= <- <-]. split; [tauto|]. intros _.
  by rewrite !bool_decide_eq_false_2.
Qed.

End IncludeTime.

(** *** The locator and the order of the listing *)

Section ListingOrder.

Context {point : Type}.

(** X3.  When the entries of a directory have pairwise different keys, the
    file the locator returns does not depend on the order in which
    [os.listdir] lists them. *)
Theorem latest_file_ignores_listing_order
    (path : string) (w w' : world) (names names' : list string) :
  fs w !! path = Some (Dir names) →
  fs w' !! path = Some (Dir names') →
  names ≡ₚ names' →
  (∀ f g, f ∈ names → g ∈ names → suffix_key f = suffix_key g → f = g) →
  (get_latest_parameter_file_name (point := point) path w).1.1
  = (get_latest_parameter_file_name (point := point) path w').1.1.
Proof.
  intros Hdir Hdir' Hperm Hkeys. rewrite !get_latest_run, Hdir, Hdir'.
  assert (sort_by_key suffix_key names = sort_by_key suffix_key names') as ->.
  { apply (StronglySorted_unique_strong key_le); try apply sort_by_key_sorted.
    - intros f g Hf Hg Hfg Hgf. rewrite sort_by_key_perm in Hf, Hg.
      rewrite <- Hperm in Hg. apply Hkeys; [done..|]. by apply (anti_symm String.le).
    - by rewrite !sort_by_key_perm. }
  by destruct (last _).
Qed.

End ListingOrder.

(** *** One grid cell, step by step *)

Section Cells.

Context {point : Type} (ext : collaborators point).

Local Abbreviation locals := (locals point).
Local Abbreviation event := (event point).

(** What the evaluation of a cell does, by the state of the cell's
    directory. *)
Lemma generate_roc_run arguments a t ts w :
  generate_roc_curve_from_model ext arguments a t ts w =
    let d := cell_out_dir arguments ts (a, t) in
    let roc_file := cell_roc_file arguments ts (a, t) in
    let test_file := model_directory arguments +:+ "test.responses" in
    match fs w !! d with
    | None => (Raise (OSError ENOENT d), w, [])
    | Some (Refused errno) => (Raise (OSError errno d), w, [])
    | Some (Dir names) =>
        match last (sort_by_key suffix_key names) with
        | None => (Raise IndexError, w, [])
        | Some latest =>
            match load_and_simulate_assessment ext (d +:+ latest) roc_file test_file w with
            | (r, w') => (r, w', [EvSimulate (d +:+ latest) roc_file test_file r])
            end
        end
    end.
Proof.
  unfold generate_roc_curve_from_model, cell_out_dir, cell_roc_file. cbn [fst snd].
  cbv zeta. unfold bind at 1. rewrite get_latest_run.
  destruct (fs w !! _) as [[names|errno]|]; [|done..].
  destruct (last _) as [latest|]; [|done].
  unfold simulate. by destruct (load_and_simulate_assessment ext _ _ _ w).
Qed.

(** A cell that ends normally went through all four steps, each in the
    world the step before left. *)
Lemma cell_body_ok_inv arguments a ts t (vars vars' : locals) w w' evs :
  cell_body ext arguments a ts t vars w = (Ok vars', w', evs) →
  let d := cell_out_dir arguments ts (a, t) in
  let p := cell_train_params arguments ts (a, t) in
  let roc_file := cell_roc_file arguments ts (a, t) in
  let test_file := model_directory arguments +:+ "test.responses" in
  ∃ w1 w2 names latest c,
    mkdir_p ext (PathStr d) w = (Ok tt, w1)
    ∧ run_programmatically ext p w1 = (Ok tt, w2)
    ∧ fs w2 !! d = Some (Dir names)
    ∧ last (sort_by_key suffix_key names) = Some latest
    ∧ load_and_simulate_assessment ext (d +:+ latest) roc_file test_file w2 = (Ok c, w')
    ∧ evs = [EvMkdir (PathStr d); EvTrain p;
             EvSimulate (d +:+ latest) roc_file test_file (Ok c)]
    ∧ vars' = mkLocals (Some t) (Some c) (v_params vars) (v_model vars).
Proof.
  unfold cell_body. cbv zeta.
  intros (u & w2 & evs1 & evs2 & Hgen & Hrest & ->)%bind_ok_inv.
  unfold generate_model_with_parameters in Hgen. cbv zeta in Hgen.
  apply bind_ok_inv in Hgen as (u1 & w1 & evs3 & evs4 & Hmk & Htr & ->).
  apply call_run in Hmk as [Hmk ->]. apply call_run in Htr as [Htr ->].
  destruct u, u1.
  apply bind_ok_inv in Hrest as (c & w3 & evs5 & evs6 & Hroc & [= <- <- <-] & ->).
  rewrite generate_roc_run in Hroc. cbv zeta in Hroc.
  destruct (fs w2 !! _) as [[names|errno]|] eqn:Hdir; [|done..].
  destruct (last _) as [latest|] eqn:Hlast; [|done].
  destruct (load_and_simulate_assessment ext _ _ _ w2) as [r w4] eqn:Hsim.
  injection Hroc as -> -> <-.
  exists w1, w2, names, latest, c. by rewrite app_nil_r.
Qed.

(** X4.  The evaluation of a cell needs a checkpoint: when the directory of
    the cell is missing it raises [OSError] with [ENOENT], when it is empty
    [IndexError], when it cannot be listed the [OSError] of the refusal, and
    in these cases the evaluator is not called and nothing changes.  Otherwise the evaluator is called once, on the entry of the
    directory with the greatest key, the curve file of the cell and the
    shared test split, and its outcome and world are the result. *)
Theorem roc_curve_needs_checkpoint
    (arguments : Namespace) (abilities : Z) (time datetime_str : string) (w : world) :
  let d := cell_out_dir arguments datetime_str (abilities, time) in
  let roc_file := cell_roc_file arguments datetime_str (abilities, time) in
  let test_file := model_directory arguments +:+ "test.responses" in
  let run := generate_roc_curve_from_model ext arguments abilities time datetime_str w in
  (fs w !! d = None → run = (Raise (OSError ENOENT d), w, []))
  ∧ (fs w !! d = Some (Dir []) → run = (Raise IndexError, w, []))
  ∧ (∀ name names, fs w !! d = Some (Dir (name :: names)) →
       ∃ latest r w',
         latest ∈ name :: names
         ∧ (∀ other, other ∈ name :: names → key_le other latest)
         ∧ load_and_simulate_assessment ext (d +:+ latest) roc_file test_file w = (r, w')
         ∧ run = (r, w', [EvSimulate (d +:+ latest) roc_file test_file r]))
  ∧ (∀ errno, fs w !! d = Some (Refused errno) →
       run = (Raise (OSError errno d), w, [])).
Proof.
  cbv zeta. rewrite generate_roc_run. cbv zeta. split; [|split; [|split]];
    [| | |by intros errno ->].
  - by intros ->.
  - by intros ->.
  - intros name names ->.
    destruct (sort_by_key_nonempty (name :: names)) as [latest Hlast]; [done|].
    rewrite Hlast.
    destruct (load_and_simulate_assessment ext _ _ _ w) as [r w'] eqn:Hsim.
    exists latest, r, w'. split; [|split; [|done]].
    + rewrite <- (sort_by_key_perm (name :: names)). by eapply last_Some_elem_of.
    + intros other Hother. rewrite <- (sort_by_key_perm (name :: names)) in Hother.
      by apply (sorted_last_greatest _ _ (sort_by_key_sorted _) Hlast).
Qed.

(** X5.  In a cell that ends normally the three collaborators work on one
    directory: the directory [mkdir_p] is asked to make is the one the
    trainer receives after [-o], and the checkpoint handed to the evaluator
    is an entry of that directory as the trainer left it.  The directory is
    made before the trainer is called, the trainer before the evaluator. *)
Theorem cell_directory_shared
    (arguments : Namespace) (abilities : Z) (datetime_str time : string)
    (vars vars' : locals) (w w' : world) (evs : list event) :
  cell_body ext arguments abilities datetime_str time vars w = (Ok vars', w', evs) →
  ∃ d p w1 w2 names latest roc_file test_file c,
    evs = [EvMkdir (PathStr d); EvTrain p; EvSimulate (d +:+ latest) roc_file test_file (Ok c)]
    ∧ p !! 8%nat = Some "-o" ∧ p !! 9%nat = Some d
    ∧ mkdir_p ext (PathStr d) w = (Ok tt, w1)
    ∧ run_programmatically ext p w1 = (Ok tt, w2)
    ∧ fs w2 !! d = Some (Dir names) ∧ latest ∈ names
    ∧ v_roc_curve vars' = Some c.
Proof.
  intros (w1 & w2 & names & latest & c & Hmk & Htr & Hdir & Hlast & Hsim & -> & ->)%cell_body_ok_inv.
  eexists _, _, w1, w2, names, latest, _, _, c.
  split; [done|]. split; [|split; [|split; [done|split; [done|split; [done|split; [|done]]]]]].
  - unfold cell_train_params, mirt_train_params. by destruct (truthy _).
  - unfold cell_train_params, mirt_train_params. by destruct (truthy _).
  - rewrite <- (sort_by_key_perm names). by eapply last_Some_elem_of.
Qed.

End Cells.

(** *** The stages, one after the other *)

Ltac stage_events :=
  repeat (apply Forall_cons; split; [first [by left|by right]|]);
  try (by constructor).

Section StageRuns.

Context {point : Type} (ext : collaborators point).

Local Abbreviation M := (M point).
Local Abbreviation locals := (locals point).
Local Abbreviation event := (event point).

(** The events of a stage: calls of that stage and printed lines. *)
Local Abbreviation of_stage s := (λ ev : event, stage_of ev = Some s ∨ stage_of ev = None).

Lemma for_each_Forall {A S} (P : event → Prop) (body : A → S → M S) :
  (∀ x s w r w' evs, body x s w = (r, w', evs) → Forall P evs) →
  ∀ l s w r w' evs, for_each l body s w = (r, w', evs) → Forall P evs.
Proof.
  intros Hbody. induction l as [|x l IH]; intros s w r w' evs; simpl.
  - by intros [= <- <- <-].
  - intros [(e & -> & Hx)|(s1 & w1 & evs1 & evs2 & Hx & Hl & ->)]%bind_run.
    + by eapply Hbody.
    + apply Forall_app. split; [by eapply Hbody|by eapply IH].
Qed.

Lemma cell_body_events arguments a ts t (vars : locals) w r w' evs :
  cell_body ext arguments a ts t vars w = (r, w', evs) → Forall (of_stage StTrain) evs.
Proof.
  intros Hcell%cell_body_trace. cbv zeta in Hcell.
  destruct Hcell as [(e & -> & [->|[->|[ckpt ->]]])|(c & ckpt & -> & ->)];
    stage_events.
Qed.

Lemma ability_body_events arguments ts a (vars : locals) w r w' evs :
  ability_body ext arguments ts a vars w = (r, w', evs) → Forall (of_stage StTrain) evs.
Proof.
  destruct (get_time_arguments_run (point := point) arguments) as (tas & _ & Htime).
  destruct (Htime w) as (printed & Hget & Hprinted).
  unfold ability_body.
  intros [(e & -> & Hraise)|(tas' & w1 & evs1 & evs2 & Hget' & Hrest & ->)]%bind_run.
  { rewrite Hget in Hraise. done. }
  rewrite Hget in Hget'. injection Hget' as <- <- <-.
  apply Forall_app. split.
  { eapply Forall_impl; [exact Hprinted|]. intros ev [line ->]. by right. }
  apply bind_run in Hrest
    as [(e & -> & Hloop)|(vars1 & w2 & evs3 & evs4 & Hloop & Htail & ->)].
  - eapply for_each_Forall; [|exact Hloop]. intros. by eapply cell_body_events.
  - apply ability_tail_run in Htail as [_ ->]. rewrite app_nil_r.
    eapply for_each_Forall; [|exact Hloop]. intros. by eapply cell_body_events.
Qed.

Lemma train_loop_events arguments ts (vars : locals) w r w' evs :
  train_loop ext arguments ts vars w = (r, w', evs) → Forall (of_stage StTrain) evs.
Proof.
  unfold train_loop. apply for_each_Forall. intros. by eapply ability_body_events.
Qed.

(** The train stage: the two set-up calls, the printed line, the reading of
    the clock and the loop. *)
Lemma train_stage_inv arguments (vars : locals) w r w' evs :
  train_stage ext arguments vars w = (r, w', evs) →
  let made := EvMkdir (PathList [model_directory arguments +:+ "rocs/"]) in
  (∃ e, r = Raise e ∧ evs = [made]
        ∧ mkdir_p ext (PathList [model_directory arguments +:+ "rocs/"]) w = (Raise e, w'))
  ∨ (∃ e w1, r = Raise e ∧ evs = [made; EvSplit arguments]
        ∧ mkdir_p ext (PathList [model_directory arguments +:+ "rocs/"]) w = (Ok tt, w1)
        ∧ sep_into_train_and_test ext arguments w1 = (Raise e, w'))
  ∨ (∃ w1 w2 evs_loop,
        mkdir_p ext (PathList [model_directory arguments +:+ "rocs/"]) w = (Ok tt, w1)
        ∧ sep_into_train_and_test ext arguments w1 = (Ok tt, w2)
        ∧ train_loop ext arguments (clock w2) vars w2 = (r, w', evs_loop)
        ∧ evs = [made; EvSplit arguments; EvPrint "Training MIRT models"] ++ evs_loop).
Proof.
  unfold train_stage, make_necessary_directiories. cbv zeta.
  intros [(e & -> & [Hmk ->]%call_run)|(u & w1 & evs1 & evs2 & [Hmk ->]%call_run & Hrest & ->)]%bind_run.
  { left. by exists e. }
  destruct u. right.
  apply bind_run in Hrest
    as [(e & -> & [Hsep ->]%call_run)|(u & w2 & evs3 & evs4 & [Hsep ->]%call_run & Hrest & ->)].
  { left. by exists e, w1. }
  destruct u. right.
  apply bind_run in Hrest as [(e & _ & [=])|(u & w3 & evs5 & evs6 & [= <- <- <-] & Hrest & ->)].
  apply bind_run in Hrest as [(e & _ & [=])|(ts & w4 & evs7 & evs8 & [= <- <- <-] & Hloop & ->)].
  by exists w1, w2, evs8.
Qed.

Lemma train_stage_events arguments (vars : locals) w r w' evs :
  train_stage ext arguments vars w = (r, w', evs) → Forall (of_stage StTrain) evs.
Proof.
  intros Hstage%train_stage_inv. cbv zeta in Hstage.
  destruct Hstage as [(e & _ & -> & _)|[(e & w1 & _ & -> & _)|(w1 & w2 & evs_loop & _ & _ & Hloop & ->)]];
    cbn [app]; stage_events.
  by eapply train_loop_events.
Qed.

(** The visualize stage stops at once when [model] is unbound, and only
    then leaves no event. *)
Lemma visualize_stage_inv (vars : locals) w r w' evs :
  visualize_stage ext vars w = (r, w', evs) →
  (v_model vars = None → r = Raise (UnboundLocalError "model") ∧ w' = w ∧ evs = [])
  ∧ Forall (of_stage StVisualize) evs
  ∧ (evs ≠ [] ∨ r = Ok tt → is_Some (v_model vars)).
Proof.
  unfold visualize_stage, bind, read_local, ret, raise, print, call.
  destruct vars as [vt [c|] [k|] [m|]]; cbn.
  - destruct (show_roc ext _ w) as [[[]|e] w1].
    + destruct (show_exercises ext m w1) as [r2 w2]. intros [= <- <- <-].
      repeat split; try done; try stage_events; eauto.
    + intros [= <- <- <-]. repeat split; try done; try stage_events; eauto.
  - intros [= <- <- <-]. repeat split; try done.
    intros [[]|[=]]. done.
  - intros [= <- <- <-]. repeat split; try done; try stage_events; eauto.
  - intros [= <- <- <-]. repeat split; try done.
    intros [[]|[=]]. done.
  - intros [= <- <- <-]. repeat split; try done; try stage_events; eauto.
  - intros [= <- <- <-]. repeat split; try done.
    intros [[]|[=]]. done.
  - intros [= <- <- <-]. repeat split; try done; try stage_events; eauto.
  - intros [= <- <- <-]. repeat split; try done.
    intros [[]|[=]]. done.
Qed.

Lemma test_stage_inv (vars : locals) w r w' evs :
  test_stage ext vars w = (r, w', evs) →
  (v_model vars = None → r = Raise (UnboundLocalError "model") ∧ w' = w ∧ evs = [])
  ∧ Forall (of_stage StTest) evs
  ∧ (evs ≠ [] ∨ r = Ok tt → is_Some (v_model vars)).
Proof.
  unfold test_stage, bind, read_local, ret, raise, call.
  destruct vars as [vt vc vk [m|]]; cbn.
  - destruct (adaptive_pretest_main ext m w) as [r1 w1]. intros [= <- <- <-].
    repeat split; try done; try stage_events; eauto.
  - intros [= <- <- <-]. repeat split; try done.
    intros [[]|[=]]. done.
Qed.

End StageRuns.

Section WholeRun.

Context {point : Type} (ext : collaborators point).

Local Abbreviation M := (M point).
Local Abbreviation locals := (locals point).
Local Abbreviation event := (event point).
Local Abbreviation of_stage s := (λ ev : event, stage_of ev = Some s ∨ stage_of ev = None).

(** The trainer and evaluator calls of the loop, for any timestamp. *)
Lemma train_loop_calls arguments ts tas (vars : locals) w r w' evs :
  (∀ w0 : world, ∃ printed,
      get_time_arguments (point := point) arguments w0 = (Ok tas, w0, printed)
      ∧ Forall (λ ev, ∃ line, ev = EvPrint line) printed) →
  train_loop ext arguments ts vars w = (r, w', evs) →
  let cells := grid (abilities arguments) tas in
  train_calls evs `prefix_of` (cell_train_params arguments ts <$> cells)
  ∧ simulate_calls evs `prefix_of` (cell_roc_file arguments ts <$> cells)
  ∧ (∀ vars', r = Ok vars' →
       train_calls evs = cell_train_params arguments ts <$> cells
       ∧ simulate_calls evs = cell_roc_file arguments ts <$> cells).
Proof.
  intros Htime Hloop. cbv zeta.
  assert (∀ a t (vars0 : locals) w0 r0 w0' evs0,
            cell_body ext arguments a ts t vars0 w0 = (r0, w0', evs0) →
            train_calls evs0 `prefix_of` [cell_train_params arguments ts (a, t)]
            ∧ (∀ vars', r0 = Ok vars' →
                 train_calls evs0 = [cell_train_params arguments ts (a, t)]))
    as Htrained.
  { intros a t vars0 w0 r0 w0' evs0 Hcell.
    apply cell_body_trace in Hcell. cbv zeta in Hcell.
    destruct Hcell as [(e & -> & [->|[->|[ckpt ->]]])|(c & ckpt & -> & ->)];
      cbn; split; try done; apply prefix_nil. }
  assert (∀ a t (vars0 : locals) w0 r0 w0' evs0,
            cell_body ext arguments a ts t vars0 w0 = (r0, w0', evs0) →
            simulate_calls evs0 `prefix_of` [cell_roc_file arguments ts (a, t)]
            ∧ (∀ vars', r0 = Ok vars' →
                 simulate_calls evs0 = [cell_roc_file arguments ts (a, t)]))
    as Hevaluated.
  { intros a t vars0 w0 r0 w0' evs0 Hcell.
    apply cell_body_trace in Hcell. cbv zeta in Hcell.
    destruct Hcell as [(e & -> & [->|[->|[ckpt ->]]])|(c & ckpt & -> & ->)];
      cbn; split; try done; apply prefix_nil. }
  pose proof (train_loop_omap ext _ (cell_train_params arguments ts) arguments ts
                (λ _, eq_refl) Htrained tas vars w r w' evs Htime Hloop) as [Htp Ht].
  pose proof (train_loop_omap ext _ (cell_roc_file arguments ts) arguments ts
                (λ _, eq_refl) Hevaluated tas vars w r w' evs Htime Hloop) as [Hsp Hs].
  split; [exact Htp|]. split; [exact Hsp|]. intros vars' Hr. split; eauto.
Qed.

(** Outside the train stage there is no trainer or evaluator call. *)
Lemma no_train_calls_outside s (evs : list event) :
  s ≠ StTrain → Forall (of_stage s) evs → train_calls evs = [] ∧ simulate_calls evs = [].
Proof.
  intros Hs. induction 1 as [|ev evs Hev _ [IHt IHs]]; [done|].
  unfold train_calls, simulate_calls in *. cbn [omap].
  destruct ev; cbn in *; rewrite ?IHt, ?IHs; try done;
    destruct Hev as [[= <-]|[=]]; done.
Qed.

Lemma no_consumer_call_before s (evs : list event) :
  s = StGenerate ∨ s = StTrain →
  Forall (of_stage s) evs → Forall (λ ev, is_consumer_call ev = false) evs.
Proof.
  intros Hs Hall. eapply Forall_impl; [exact Hall|]. intros ev Hev.
  destruct ev; cbn in *; try done; destruct Hs as [-> | ->], Hev as [[=]|[=]].
Qed.

(** A run is its four stages in a row.  The later stages leave an event or
    end normally only when the train part ended normally with [model]
    bound. *)
Lemma run_with_arguments_inv arguments w r w' evs :
  run_with_arguments ext arguments w = (r, w', evs) →
  ∃ eg et ev ex,
    evs = eg ++ et ++ ev ++ ex
    ∧ Forall (of_stage StGenerate) eg ∧ (eg ≠ [] → generate arguments = true)
    ∧ Forall (of_stage StTrain) et ∧ (et ≠ [] → train arguments = true)
    ∧ Forall (of_stage StVisualize) ev ∧ (ev ≠ [] → visualize arguments = true)
    ∧ Forall (of_stage StTest) ex ∧ (ex ≠ [] → test arguments = true)
    ∧ (ev ≠ [] ∨ ex ≠ []
       ∨ (r = Ok tt ∧ (visualize arguments = true ∨ test arguments = true)) →
       ∃ wg (vars : locals) wt,
         (if train arguments then train_stage ext arguments unbound else ret unbound) wg
         = (Ok vars, wt, et)
         ∧ is_Some (v_model vars)).
Proof.
  unfold run_with_arguments.
  intros [(e & -> & Hg)|(u & wg & eg & rest & Hg & Hrest & ->)]%bind_run.
  { exists evs, [], [], []. rewrite !app_nil_r.
    destruct (generate arguments); [|done].
    apply call_run in Hg as [_ ->].
    repeat split; try done; try stage_events. by intros [Hne|[Hne|[[=] _]]]. }
  assert (Forall (of_stage StGenerate) eg ∧ (eg ≠ [] → generate arguments = true))
    as [Heg Hgen].
  { destruct (generate arguments).
    - apply call_run in Hg as [_ ->]. split; [stage_events|done].
    - injection Hg as _ _ <-. by split. }
  apply bind_run in Hrest as [(e & -> & Ht)|(vars & wt & et & rest' & Ht & Hrest & ->)].
  { exists eg, rest, [], []. rewrite !app_nil_r.
    destruct (train arguments); [|done].
    apply train_stage_events in Ht.
    repeat split; try done. by intros [Hne|[Hne|[[=] _]]]. }
  assert (Forall (of_stage StTrain) et ∧ (et ≠ [] → train arguments = true))
    as [Het Htrain].
  { destruct (train arguments).
    - apply train_stage_events in Ht. by split.
    - injection Ht as _ _ <-. by split. }
  apply bind_run in Hrest as [(e & -> & Hv)|(u' & wv & ev & ex & Hv & Hx & ->)].
  { exists eg, et, rest', []. rewrite !app_nil_r.
    destruct (visualize arguments); [|done].
    apply visualize_stage_inv in Hv as (_ & Hev & Hbound).
    repeat split; try done.
    intros [Hne|[Hne|[[=] _]]]; [|done]. exists wg, vars, wt. split; [done|].
    apply Hbound. by left. }
  exists eg, et, ev, ex.
  assert (Forall (of_stage StVisualize) ev ∧ (ev ≠ [] → visualize arguments = true)
          ∧ (visualize arguments = true → is_Some (v_model vars))) as (Hev & Hvis & Hvbound).
  { destruct (visualize arguments).
    - apply visualize_stage_inv in Hv as (_ & Hev & Hbound).
      destruct u'. repeat split; try done. intros _. apply Hbound. by right.
    - injection Hv as _ _ <-. by repeat split. }
  assert (Forall (of_stage StTest) ex ∧ (ex ≠ [] → test arguments = true)
          ∧ (ex ≠ [] ∨ (r = Ok tt ∧ test arguments = true) → is_Some (v_model vars)))
    as (Hex & Htest & Hxbound).
  { destruct (test arguments).
    - apply test_stage_inv in Hx as (_ & Hex & Hbound).
      repeat split; try done. intros [Hne|[-> _]]; apply Hbound; auto.
    - injection Hx as _ _ <-. repeat split; try done. by intros [Hne|[_ [=]]]. }
  repeat split; try done.
  intros Hreached. exists wg, vars, wt. split; [done|].
  destruct Hreached as [Hne|[Hne|[-> [Hflag|Hflag]]]]; auto.
Qed.

End WholeRun.

Lemma occurs_app_sep c s r : occurs c (s +:+ String c r) = true.
Proof.
  induction s as [|c' s IH]; simpl.
  - by rewrite bool_decide_eq_true_2.
  - rewrite IH. apply orb_true_r.
Qed.

(** No cell directory is the directory of the curve files. *)
Lemma cell_out_dir_not_rocs arguments ts cell :
  cell_out_dir arguments ts cell ≠ model_directory arguments +:+ "rocs/".
Proof.
  unfold cell_out_dir. intros Heq%(inj (String.append _)).
  change "rocs/" with ("rocs" +:+ "/") in Heq. apply string_app_inv_tail in Heq.
  apply (f_equal (occurs "_")) in Heq. unfold gen_param_str in Heq.
  change (?s +:+ "_" +:+ ?r) with (s +:+ String "_" r) in Heq.
  by rewrite occurs_app_sep in Heq.
Qed.

Section StageProperties.

Context {point : Type} (ext : collaborators point).

Local Abbreviation locals := (locals point).
Local Abbreviation event := (event point).

(** X6.  The train stage makes the curve directory, then splits the data,
    and only then reads the clock, once: when either set-up call raises, no
    trainer or evaluator is called; otherwise every trainer and evaluator
    call of the stage carries the timestamp the clock showed right after the
    split, whatever the collaborators do to the clock later, and the calls
    follow the grid in order. *)
Theorem train_stage_single_timestamp
    (arguments : Namespace) (vars : locals) (w w' : world)
    (r : result locals) (evs : list event) :
  train_stage ext arguments vars w = (r, w', evs) →
  let roc_dir := model_directory arguments +:+ "rocs/" in
  let made := EvMkdir (PathList [roc_dir]) in
  ∃ time_arguments,
    (∀ w0 : world, ∃ printed,
        get_time_arguments (point := point) arguments w0
        = (Ok time_arguments, w0, printed))
    ∧ let cells := grid (abilities arguments) time_arguments in
      (∃ e, r = Raise e
            ∧ (evs = [made] ∨ evs = [made; EvSplit arguments])
            ∧ train_calls evs = [] ∧ simulate_calls evs = [])
      ∨ (∃ w1 w2 evs_loop,
            mkdir_p ext (PathList [roc_dir]) w = (Ok tt, w1)
            ∧ sep_into_train_and_test ext arguments w1 = (Ok tt, w2)
            ∧ evs = [made; EvSplit arguments; EvPrint "Training MIRT models"] ++ evs_loop
            ∧ train_calls evs `prefix_of` (cell_train_params arguments (clock w2) <$> cells)
            ∧ simulate_calls evs `prefix_of` (cell_roc_file arguments (clock w2) <$> cells)
            ∧ (∀ vars', r = Ok vars' →
                 train_calls evs = cell_train_params arguments (clock w2) <$> cells
                 ∧ simulate_calls evs = cell_roc_file arguments (clock w2) <$> cells)).
Proof.
  intros Hstage%train_stage_inv. cbv zeta in *.
  destruct (get_time_arguments_run (point := point) arguments) as (tas & _ & Htime).
  exists tas. split.
  { intros w0. destruct (Htime w0) as (printed & Hget & _). by exists printed. }
  destruct Hstage
    as [(e & -> & -> & _)|[(e & w1 & -> & -> & _)|(w1 & w2 & evs_loop & Hmk & Hsep & Hloop & ->)]].
  - left. exists e. auto.
  - left. exists e. auto.
  - right. exists w1, w2, evs_loop.
    destruct (train_loop_calls ext _ _ _ _ _ _ _ _ Htime Hloop) as (Htp & Hsp & Hok).
    split; [done|]. split; [done|]. split; [done|].
    unfold train_calls, simulate_calls in *. cbn [app omap].
    split; [done|]. split; [done|]. exact Hok.
Qed.

(** X7.  When the evaluator changes no directory listing but that of the
    curve directory, the model path the loop leaves for the visualize and
    test stages is the very checkpoint that the last evaluation, the last
    call of the loop, was run on, and the curve is what that evaluation
    returned. *)
Theorem model_is_evaluated_checkpoint
    (arguments : Namespace) (datetime_str : string)
    (vars vars' : locals) (w w' : world) (evs : list event) :
  abilities arguments ≠ [] →
  (∀ ckpt roc_file test_file w0 d,
      d ≠ model_directory arguments +:+ "rocs/" →
      fs (load_and_simulate_assessment ext ckpt roc_file test_file w0).2 !! d
      = fs w0 !! d) →
  train_loop ext arguments datetime_str vars w = (Ok vars', w', evs) →
  ∃ evs0 ckpt roc_file test_file c,
    evs = evs0 ++ [EvSimulate ckpt roc_file test_file (Ok c)]
    ∧ v_model vars' = Some ckpt
    ∧ v_roc_curve vars' = Some c.
Proof.
  intros Hne Hkeeps Hloop.
  destruct (get_time_arguments_run (point := point) arguments) as (tas & Hcases & Htime).
  apply last_is_Some in Hne as [a [abilities' Habilities]%last_Some].
  assert (∃ tas' t, tas = tas' ++ [t]) as (tas' & t & ->).
  { destruct Hcases as [->|[->| ->]]; [by exists [""], "-z"|by exists [], "-z"|by exists [], ""]. }
  unfold train_loop in Hloop. rewrite Habilities in Hloop.
  apply for_each_snoc_ok in Hloop as (vars1 & w1 & evs1 & evs2 & _ & Hbody & ->).
  unfold ability_body in Hbody.
  apply bind_ok_inv in Hbody as (tas0 & w2 & printed & evs3 & Hget & Hbody & ->).
  destruct (Htime w1) as (printed' & Hget' & _).
  rewrite Hget' in Hget. injection Hget as <- <- <-.
  apply bind_ok_inv in Hbody as (vars2 & w3 & evs4 & evs5 & Hinner & Htail & ->).
  apply for_each_snoc_ok in Hinner as (vars3 & w4 & evs6 & evs7 & _ & Hcell & ->).
  apply cell_body_ok_inv in Hcell. cbv zeta in Hcell.
  destruct Hcell as (w5 & w6 & names & latest & c & _ & _ & Hdir & Hlast & Hsim & -> & ->).
  cbn [v_time] in Htail.
  apply bind_ok_inv in Htail as (t0 & w7 & evs8 & evs9 & [= <- <- <-] & Htail & ->).
  apply bind_ok_inv in Htail as (m & w8 & evs10 & evs11 & Hlatest & [= <- <- <-] & ->).
  rewrite get_latest_run in Hlatest.
  pose proof (Hkeeps (cell_out_dir arguments datetime_str (a, t) +:+ latest)
                (cell_roc_file arguments datetime_str (a, t))
                (model_directory arguments +:+ "test.responses") w6
                (cell_out_dir arguments datetime_str (a, t))
                (cell_out_dir_not_rocs _ _ _)) as Hsame.
  rewrite Hsim in Hsame. cbn [snd] in Hsame.
  change (model_directory arguments +:+ gen_param_str a datetime_str t +:+ "/")
    with (cell_out_dir arguments datetime_str (a, t)) in Hlatest.
  rewrite Hsame, Hdir, Hlast in Hlatest. injection Hlatest as <- <- <-.
  eexists (evs1 ++ printed' ++ evs6 ++ [_; _]), _, _, _, c.
  split; [|done]. rewrite !app_nil_r. cbn [app]. by rewrite <- !app_assoc.
Qed.

(** X8.  A collaborator is called only when the flag of its stage is set:
    the generator under [--generate], [mkdir_p], the splitter, the trainer
    and the evaluator under [--train], the two visualisation calls under
    [--visualize], the adaptive test under [--test]. *)
Theorem calls_gated_by_flags
    (arguments : Namespace) (w : world) (ev : event) (s : stage) :
  ev ∈ (run_with_arguments ext arguments w).2 →
  stage_of ev = Some s →
  stage_flag arguments s = true.
Proof.
  destruct (run_with_arguments ext arguments w) as [[r w'] evs] eqn:Hrun. cbn [snd].
  apply run_with_arguments_inv in Hrun
    as (eg & et & ev' & ex & -> & Heg & Hg & Het & Ht & Hev & Hv & Hex & Hx & _).
  rewrite !elem_of_app. rewrite Forall_forall in Heg, Het, Hev, Hex.
  intros [Hin|[Hin|[Hin|Hin]]] Hs.
  - destruct (Heg _ Hin) as [Hst|Hst]; rewrite Hs in Hst; [|done].
    injection Hst as ->. apply Hg. by intros ->; apply elem_of_nil in Hin.
  - destruct (Het _ Hin) as [Hst|Hst]; rewrite Hs in Hst; [|done].
    injection Hst as ->. apply Ht. by intros ->; apply elem_of_nil in Hin.
  - destruct (Hev _ Hin) as [Hst|Hst]; rewrite Hs in Hst; [|done].
    injection Hst as ->. apply Hv. by intros ->; apply elem_of_nil in Hin.
  - destruct (Hex _ Hin) as [Hst|Hst]; rewrite Hs in Hst; [|done].
    injection Hst as ->. apply Hx. by intros ->; apply elem_of_nil in Hin.
Qed.

End StageProperties.

Lemma omap_stage_block {point} s (evs : list (event point)) :
  Forall (λ ev, stage_of ev = Some s ∨ stage_of ev = None) evs →
  Forall (eq s) (omap stage_of evs).
Proof.
  induction 1 as [|ev evs Hev _ IH]; [constructor|].
  change (omap stage_of (ev :: evs))
    with (match stage_of ev with
          | Some s' => s' :: omap stage_of evs
          | None => omap stage_of evs
          end).
  destruct Hev as [-> | ->]; [by constructor|done].
Qed.

Lemma stage_blocks_sorted (l1 l2 : list stage) (n : nat) :
  StronglySorted (λ s1 s2, stage_rank s1 ≤ stage_rank s2)%nat l1 →
  StronglySorted (λ s1 s2, stage_rank s1 ≤ stage_rank s2)%nat l2 →
  Forall (λ s, stage_rank s ≤ n)%nat l1 →
  Forall (λ s, n ≤ stage_rank s)%nat l2 →
  StronglySorted (λ s1 s2, stage_rank s1 ≤ stage_rank s2)%nat (l1 ++ l2).
Proof.
  intros Hs1 Hs2 Hl1 Hl2. apply StronglySorted_app. split; [|done].
  rewrite Forall_forall in Hl1, Hl2. intros s1 s2 H1 H2.
  specialize (Hl1 _ H1). specialize (Hl2 _ H2). lia.
Qed.

Lemma stage_block_sorted (s : stage) (l : list stage) :
  Forall (eq s) l →
  StronglySorted (λ s1 s2, stage_rank s1 ≤ stage_rank s2)%nat l.
Proof.
  induction 1 as [|s' l <- Hl IH]; constructor; [done|].
  eapply Forall_impl; [exact Hl|]. by intros s' <-.
Qed.

Section RunOrder.

Context {point : Type} (ext : collaborators point).

Local Abbreviation locals := (locals point).
Local Abbreviation event := (event point).

(** X9.  The visualisation and the adaptive test are reached only after a
    complete grid: if a run calls either of them, or ends normally with
    [--visualize] or [--test] set, then [--train] was set, the ability list
    was not empty, and the trainer and the evaluator were called for every
    cell of the grid, in grid order and under one timestamp. *)
Theorem consumers_need_completed_grid
    (arguments : Namespace) (w w' : world) (r : result unit) (evs : list event) :
  run_with_arguments ext arguments w = (r, w', evs) →
  Exists (λ ev, is_consumer_call ev = true) evs
  ∨ (r = Ok tt ∧ (visualize arguments = true ∨ test arguments = true)) →
  train arguments = true
  ∧ abilities arguments ≠ []
  ∧ ∃ time_arguments datetime_str,
      (∀ w0 : world, ∃ printed,
          get_time_arguments (point := point) arguments w0
          = (Ok time_arguments, w0, printed))
      ∧ train_calls evs
        = cell_train_params arguments datetime_str
            <$> grid (abilities arguments) time_arguments
      ∧ simulate_calls evs
        = cell_roc_file arguments datetime_str
            <$> grid (abilities arguments) time_arguments.
Proof.
  intros (eg & et & ev & ex & -> & Heg & _ & Het & _ & Hev & _ & Hex & _ & Hreach)%run_with_arguments_inv
    Hconsumed.
  destruct Hreach as (wg & vars & wt & Htrain & [m Hbound]).
  { destruct Hconsumed as [Hcalls|Hended]; [|auto].
    apply (no_consumer_call_before StGenerate) in Heg as Hg; [|by left].
    apply (no_consumer_call_before StTrain) in Het as Ht; [|by right].
    rewrite !Exists_app in Hcalls.
    destruct Hcalls as [Hin|[Hin|[Hin|Hin]]].
    - apply Exists_exists in Hin as (e & Hin & He). rewrite Forall_forall in Hg.
      rewrite (Hg _ Hin) in He. done.
    - apply Exists_exists in Hin as (e & Hin & He). rewrite Forall_forall in Ht.
      rewrite (Ht _ Hin) in He. done.
    - left. intros ->. by apply Exists_nil in Hin.
    - right. left. intros ->. by apply Exists_nil in Hin. }
  destruct (train arguments); [|by injection Htrain as <- _ _].
  apply train_stage_inv in Htrain. cbv zeta in Htrain.
  destruct Htrain
    as [(e & [=] & _)|[(e & w1 & [=] & _)|(w1 & w2 & evs_loop & _ & _ & Hloop & ->)]].
  split; [done|]. split.
  { intros Hnil. unfold train_loop in Hloop. rewrite Hnil in Hloop.
    injection Hloop as <- _ _. done. }
  destruct (get_time_arguments_run (point := point) arguments) as (tas & _ & Htime).
  exists tas, (clock w2). split.
  { intros w0. destruct (Htime w0) as (printed & Hget & _). by exists printed. }
  destruct (train_loop_calls ext _ _ _ _ _ _ _ _ Htime Hloop) as (_ & _ & Hok).
  destruct (Hok vars eq_refl) as [Htrained Hevaluated].
  destruct (no_train_calls_outside StGenerate eg) as [Hgt Hgs]; [done..|].
  destruct (no_train_calls_outside StVisualize ev) as [Hvt Hvs]; [done..|].
  destruct (no_train_calls_outside StTest ex) as [Hxt Hxs]; [done..|].
  unfold train_calls, simulate_calls in *. rewrite !omap_app.
  rewrite Hgt, Hgs, Hvt, Hvs, Hxt, Hxs, Htrained, Hevaluated.
  cbn [omap app]. by rewrite !app_nil_r.
Qed.

(** X10.  The stages keep their order in every run, however it ends: in the
    trace no call of a later stage comes before a call of an earlier one,
    the order being generate, train, visualize, test. *)
Theorem stages_in_fixed_order (arguments : Namespace) (w : world) :
  StronglySorted (λ s1 s2, stage_rank s1 ≤ stage_rank s2)%nat
    (omap stage_of (run_with_arguments ext arguments w).2).
Proof.
  destruct (run_with_arguments ext arguments w) as [[r w'] evs] eqn:Hrun. cbn [snd].
  apply run_with_arguments_inv in Hrun
    as (eg & et & ev & ex & -> & Heg & _ & Het & _ & Hev & _ & Hex & _ & _).
  apply omap_stage_block in Heg, Het, Hev, Hex. rewrite !omap_app.
  apply (stage_blocks_sorted _ _ 0); [by eapply stage_block_sorted| |..].
  - apply (stage_blocks_sorted _ _ 1); [by eapply stage_block_sorted| |..].
    + apply (stage_blocks_sorted _ _ 2); [by eapply stage_block_sorted..| |].
      * eapply Forall_impl; [exact Hev|]. by intros s <-.
      * eapply Forall_impl; [exact Hex|]. intros s <-. cbn. lia.
    + eapply Forall_impl; [exact Het|]. by intros s <-.
    + apply Forall_app. split; (eapply Forall_impl; [eassumption|]); intros s <-; cbn; lia.
  - eapply Forall_impl; [exact Heg|]. by intros s <-.
  - apply Forall_forall. intros s _. lia.
Qed.

End RunOrder.

(** *** Runs that end normally *)

Section Progress.

Context {point : Type} (ext : collaborators point).

Local Abbreviation M := (M point).
Local Abbreviation locals := (locals point).
Local Abbreviation event := (event point).

Lemma bind_ok_intro {A B} (m : M A) (k : A → M B) w a w1 evs1 b w2 evs2 :
  m w = (Ok a, w1, evs1) → k a w1 = (Ok b, w2, evs2) →
  bind m k w = (Ok b, w2, evs1 ++ evs2).
Proof. unfold bind. by intros -> ->. Qed.

Lemma for_each_ok {A S} (body : A → S → M S) :
  (∀ x s w, ∃ s' w' evs, body x s w = (Ok s', w', evs)) →
  ∀ l s w, ∃ s' w' evs, for_each l body s w = (Ok s', w', evs).
Proof.
  intros Hbody. induction l as [|x l IH]; intros s w; simpl.
  - by eexists _, _, _.
  - destruct (Hbody x s w) as (s1 & w1 & evs1 & Hx).
    destruct (IH s1 w1) as (s2 & w2 & evs2 & Hl).
    eexists _, _, _. by eapply bind_ok_intro.
Qed.

Context (arguments : Namespace).
Hypothesis sound : sound_collaborators ext arguments.

(** With sound collaborators a cell ends normally and leaves its directory
    with an entry. *)
Lemma cell_body_progress a ts t (vars : locals) w :
  ∃ c w' evs name names,
    cell_body ext arguments a ts t vars w
    = (Ok (mkLocals (Some t) (Some c) (v_params vars) (v_model vars)), w', evs)
    ∧ fs w' !! cell_out_dir arguments ts (a, t) = Some (Dir (name :: names)).
Proof.
  destruct sound as (_ & Hmk & _ & Htr & Hev & _).
  set (d := cell_out_dir arguments ts (a, t)).
  set (p := cell_train_params arguments ts (a, t)).
  destruct (Hmk (PathStr d) w) as (w1 & Hmk1).
  assert (p !! 9%nat = Some d) as Hp.
  { unfold p, cell_train_params, mirt_train_params. by destruct (truthy _). }
  destruct (Htr p d w1 Hp) as (w2 & name & names & Htr1 & Hdir).
  destruct (sort_by_key_nonempty (name :: names)) as [latest Hlast]; [done|].
  destruct (Hev (d +:+ latest) (cell_roc_file arguments ts (a, t))
              (model_directory arguments +:+ "test.responses") w2)
    as (c & w3 & Hsim & Hkeeps).
  exists c, w3. eexists _, name, names. split.
  - unfold cell_body. eapply bind_ok_intro.
    { unfold generate_model_with_parameters. cbv zeta.
      change (model_directory arguments +:+ gen_param_str a ts t +:+ "/") with d.
      change (mirt_train_params arguments a t d) with p.
      eapply bind_ok_intro; unfold call; [by rewrite Hmk1|by rewrite Htr1]. }
    eapply bind_ok_intro; [|reflexivity].
    rewrite generate_roc_run. cbv zeta. fold d. by rewrite Hdir, Hlast, Hsim.
  - rewrite Hkeeps; [done|]. apply cell_out_dir_not_rocs.
Qed.

(** With sound collaborators the body of the outer loop ends normally with
    the three variables of the later stages bound. *)
Lemma ability_body_progress ts a (vars : locals) w :
  ∃ vars' w' evs,
    ability_body ext arguments ts a vars w = (Ok vars', w', evs)
    ∧ is_Some (v_model vars') ∧ is_Some (v_roc_curve vars') ∧ is_Some (v_params vars').
Proof.
  destruct (get_time_arguments_run (point := point) arguments) as (tas & Hcases & Htime).
  destruct (Htime w) as (printed & Hget & _).
  assert (∃ tas' t, tas = tas' ++ [t]) as (tas' & t & ->).
  { destruct Hcases as [->|[->| ->]]; [by exists [""], "-z"|by exists [], "-z"|by exists [], ""]. }
  destruct (for_each_ok (cell_body ext arguments a ts)) with (l := tas') (s := vars) (w := w)
    as (vars1 & w1 & evs1 & Hfirst).
  { intros t0 s0 w0. destruct (cell_body_progress a ts t0 s0 w0) as (c & w' & evs & _ & _ & H & _).
    by eexists _, _, _. }
  destruct (cell_body_progress a ts t vars1 w1) as (c & w2 & evs2 & name & names & Hlastcell & Hdir).
  destruct (sort_by_key_nonempty (name :: names)) as [latest Hlast]; [done|].
  eexists _, _, _. split.
  - unfold ability_body. eapply bind_ok_intro; [exact Hget|].
    eapply bind_ok_intro.
    { rewrite for_each_app. eapply bind_ok_intro; [exact Hfirst|].
      cbn [for_each]. eapply bind_ok_intro; [exact Hlastcell|reflexivity]. }
    cbn [v_time read_local]. eapply bind_ok_intro; [reflexivity|].
    eapply bind_ok_intro; [|reflexivity].
    rewrite get_latest_run.
    change (model_directory arguments +:+ gen_param_str a ts t +:+ "/")
      with (cell_out_dir arguments ts (a, t)).
    by rewrite Hdir, Hlast.
  - cbn. eauto.
Qed.

Lemma train_loop_progress ts (vars : locals) w :
  ∃ vars' w' evs,
    train_loop ext arguments ts vars w = (Ok vars', w', evs)
    ∧ (abilities arguments ≠ [] →
       is_Some (v_model vars') ∧ is_Some (v_roc_curve vars') ∧ is_Some (v_params vars')).
Proof.
  unfold train_loop.
  destruct (abilities arguments) as [|a0 abilities0] eqn:Habilities.
  { eexists _, _, _. split; [reflexivity|done]. }
  assert (∃ abilities' a, a0 :: abilities0 = abilities' ++ [a]) as (abilities' & a & ->).
  { assert (is_Some (last (a0 :: abilities0))) as [a Hlast] by (by apply last_is_Some).
    apply last_Some in Hlast as [abilities' ->]. by exists abilities', a. }
  destruct (for_each_ok (ability_body ext arguments ts)) with (l := abilities') (s := vars) (w := w)
    as (vars1 & w1 & evs1 & Hfirst).
  { intros a1 s1 w1. destruct (ability_body_progress ts a1 s1 w1) as (v & w' & evs & H & _).
    by eexists _, _, _. }
  destruct (ability_body_progress ts a vars1 w1) as (vars2 & w2 & evs2 & Hlast & Hbound).
  eexists _, _, _. split; [|done].
  rewrite for_each_app. eapply bind_ok_intro; [exact Hfirst|].
  cbn [for_each]. eapply bind_ok_intro; [exact Hlast|reflexivity].
Qed.

End Progress.

Section Completion.

Context {point : Type} (ext : collaborators point).

Local Abbreviation locals := (locals point).
Local Abbreviation event := (event point).

(** X11.  With collaborators that keep to their contracts, a run ends
    normally whenever the stages it asks for can have their inputs: every
    combination of flags does, provided that [--visualize] and [--test] come
    with [--train] and a non-empty ability list. *)
Theorem run_ends_normally (arguments : Namespace) (w : world) :
  sound_collaborators ext arguments →
  (visualize arguments = true ∨ test arguments = true →
   train arguments = true ∧ abilities arguments ≠ []) →
  ∃ w' evs, run_with_arguments ext arguments w = (Ok tt, w', evs).
Proof.
  intros Hsound Hinputs.
  pose proof Hsound as (Hgen & Hmk & Hsep & _ & _ & Hroc & Hex & Hadapt).
  assert (∃ wg (eg : list event),
            (if generate arguments
             then call (EvGenerate arguments) (generate_responses_run ext arguments)
             else ret tt) w = (Ok tt, wg, eg)) as (wg & eg & Hg).
  { destruct (generate arguments); [|by eexists _, _].
    destruct (Hgen w) as (wg & Hrun). exists wg. eexists. unfold call. by rewrite Hrun. }
  assert (∃ (vars : locals) wt et,
            (if train arguments then train_stage ext arguments unbound else ret unbound) wg
            = (Ok vars, wt, et)
            ∧ (train arguments = true → abilities arguments ≠ [] →
               is_Some (v_model vars) ∧ is_Some (v_roc_curve vars)
               ∧ is_Some (v_params vars))) as (vars & wt & et & Ht & Hbound).
  { destruct (train arguments); [|by eexists _, _, _].
    destruct (Hmk (PathList [model_directory arguments +:+ "rocs/"]) wg) as (w1 & Hmk1).
    destruct (Hsep w1) as (w2 & Hsep1).
    destruct (train_loop_progress ext arguments Hsound (clock w2) unbound w2)
      as (vars & wt & evs & Hloop & Hbound).
    exists vars, wt. eexists. split; [|auto].
    unfold train_stage, make_necessary_directiories. cbv zeta.
    eapply bind_ok_intro; [unfold call; by rewrite Hmk1|].
    eapply bind_ok_intro; [unfold call; by rewrite Hsep1|].
    eapply bind_ok_intro; [reflexivity|].
    eapply bind_ok_intro; [reflexivity|]. exact Hloop. }
  assert (∃ wv (ev : list event),
            (if visualize arguments then visualize_stage ext vars else ret tt) wt
            = (Ok tt, wv, ev)) as (wv & ev & Hv).
  { destruct (visualize arguments) eqn:Hflag; [|by eexists _, _].
    destruct Hinputs as [Htrain Hne]; [by left|].
    destruct (Hbound Htrain Hne) as ([m Hm] & [c Hc] & [k Hk]).
    destruct (Hroc {[ k := c ]} wt) as (w1 & Hroc1).
    destruct (Hex m w1) as (w2 & Hex1).
    exists w2. eexists.
    unfold visualize_stage, bind, read_local, ret, print, call.
    by rewrite Hm, Hc, Hk, Hroc1, Hex1. }
  assert (∃ wx (ex : list event),
            (if test arguments then test_stage ext vars else ret tt) wv
            = (Ok tt, wx, ex)) as (wx & ex & Hx).
  { destruct (test arguments) eqn:Hflag; [|by eexists _, _].
    destruct Hinputs as [Htrain Hne]; [by right|].
    destruct (Hbound Htrain Hne) as ([m Hm] & _).
    destruct (Hadapt m wv) as (w1 & Hadapt1).
    exists w1. eexists.
    unfold test_stage, bind, read_local, ret, call.
    by rewrite Hm, Hadapt1. }
  exists wx. eexists. unfold run_with_arguments.
  eapply bind_ok_intro; [exact Hg|].
  eapply bind_ok_intro; [exact Ht|].
  eapply bind_ok_intro; [exact Hv|exact Hx].
Qed.

End Completion.

(** *** Concrete instances of the further properties *)

(** X1 at two runs one minute apart. *)
Lemma artifacts_of_runs_apart_witness :
  cell_out_dir (demo_arguments [1] "with_time" false true false false)
    "2015_06_01_12_30" (1, "")
  ≠ cell_out_dir (demo_arguments [1] "with_time" false true false false)
      "2015_06_01_12_31" (1, "").
Proof.
  apply (artifacts_of_runs_apart
           (demo_arguments [1] "with_time" false true false false)
           "2015_06_01_12_30" "2015_06_01_12_31" (1, "") (1, "")).
  by intros [=].
Defined.

(** X2 at an unrecognised time mode. *)
Lemma include_time_and_time_arguments_witness :
  include_time (demo_arguments [1] "sometimes" false true false false) = false.
Proof.
  destruct (include_time_and_time_arguments (point := string)
              (demo_arguments [1] "sometimes" false true false false) demo_world [""]
              [EvPrint "Invalid argument selected for --time";
               EvPrint "Choosing default behavior - with time"])
    as [_ Hfallback]; [reflexivity|by vm_compute|].
  apply Hfallback. by intros [[=]|[[=]|[=]]].
Defined.

(** X3 at the demonstration checkpoints listed in two orders. *)
Lemma latest_file_ignores_listing_order_witness :
  (get_latest_parameter_file_name (point := string) "models/run/"
     (mkWorld {[ "models/run/" := Dir ["theta_03"; "theta_9"; "theta_10"] ]}
        "2015_06_01_12_30")).1.1
  = (get_latest_parameter_file_name (point := string) "models/run/"
       (mkWorld {[ "models/run/" := Dir ["theta_9"; "theta_03"; "theta_10"] ]}
          "2015_06_01_12_30")).1.1.
Proof.
  apply (latest_file_ignores_listing_order (point := string) "models/run/" _ _
           ["theta_03"; "theta_9"; "theta_10"] ["theta_9"; "theta_03"; "theta_10"]).
  - by vm_compute.
  - by vm_compute.
  - apply Permutation_swap.
  - intros f g Hf Hg.
    repeat (apply elem_of_cons in Hf as [->|Hf]); try (by apply elem_of_nil in Hf);
      repeat (apply elem_of_cons in Hg as [->|Hg]); try (by apply elem_of_nil in Hg);
      vm_compute; intros Hkey; first [reflexivity|discriminate Hkey].
Defined.

(** X4 at a cell whose directory was never made. *)
Lemma roc_curve_needs_checkpoint_witness :
  generate_roc_curve_from_model demo_ext
    (demo_arguments [1] "with_time" false true false false) 1 "" "2015_06_01_12_30"
    demo_world
  = (Raise (OSError ENOENT "models/1_no_time_2015_06_01_12_30/"), demo_world, []).
Proof.
  apply (proj1 (roc_curve_needs_checkpoint demo_ext
                  (demo_arguments [1] "with_time" false true false false) 1 ""
                  "2015_06_01_12_30" demo_world)).
  by vm_compute.
Defined.

(** X5 at the first cell of the demonstration run. *)
Lemma cell_directory_shared_witness :
  ∃ vars' w' evs,
    cell_body demo_ext (demo_arguments [1] "with_time" false true false false)
      1 "2015_06_01_12_30" "" unbound demo_world = (Ok vars', w', evs)
    ∧ length evs = 3%nat.
Proof.
  destruct (cell_body demo_ext (demo_arguments [1] "with_time" false true false false)
              1 "2015_06_01_12_30" "" unbound demo_world)
    as [[[vars'|e] w'] evs] eqn:Hcell; [|by vm_compute in Hcell].
  exists vars', w', evs. split; [done|].
  by destruct (cell_directory_shared demo_ext _ _ _ _ _ _ _ _ _ Hcell)
    as (d & p & w1 & w2 & names & latest & roc_file & test_file & c & -> & _).
Defined.

(** X6 at the train stage of a one-cell run. *)
Lemma train_stage_single_timestamp_witness :
  ∃ r w' evs,
    train_stage demo_ext (demo_arguments [1] "with_time" false true false false)
      unbound demo_world = (r, w', evs)
    ∧ ∃ time_arguments, ∀ w0 : world, ∃ printed,
        get_time_arguments (point := string)
          (demo_arguments [1] "with_time" false true false false) w0
        = (Ok time_arguments, w0, printed).
Proof.
  destruct (train_stage demo_ext (demo_arguments [1] "with_time" false true false false)
              unbound demo_world) as [[r w'] evs] eqn:Hstage.
  exists r, w', evs. split; [done|].
  destruct (train_stage_single_timestamp demo_ext _ _ _ _ _ _ Hstage) as (tas & Htime & _).
  by exists tas.
Defined.

(** X7 at the demonstration run, whose evaluator changes nothing. *)
Lemma model_is_evaluated_checkpoint_witness :
  ∃ vars' w' evs,
    train_loop demo_ext
      (demo_arguments [1; 2] "with_and_without_time" false true true true)
      "2015_06_01_12_30" unbound demo_world = (Ok vars', w', evs)
    ∧ ∃ evs0 ckpt roc_file test_file c,
        evs = evs0 ++ [EvSimulate ckpt roc_file test_file (Ok c)]
        ∧ v_model vars' = Some ckpt.
Proof.
  destruct (train_loop demo_ext
              (demo_arguments [1; 2] "with_and_without_time" false true true true)
              "2015_06_01_12_30" unbound demo_world) as [[[vars'|e] w'] evs] eqn:Hrun;
    [|by vm_compute in Hrun].
  exists vars', w', evs. split; [done|].
  assert (abilities (demo_arguments [1; 2] "with_and_without_time" false true true true)
          ≠ []) as Hne by done.
  destruct (model_is_evaluated_checkpoint demo_ext _ _ _ _ _ _ _ Hne (λ _ _ _ _ _ _, eq_refl) Hrun)
    as (evs0 & ckpt & roc_file & test_file & c & Hevs & Hmodel & _).
  by exists evs0, ckpt, roc_file, test_file, c.
Defined.

(** X8 at a run with only [--generate]. *)
Lemma calls_gated_by_flags_witness :
  stage_flag (demo_arguments [1] "with_time" true false false false) StGenerate = true.
Proof.
  apply (calls_gated_by_flags demo_ext
           (demo_arguments [1] "with_time" true false false false) demo_world
           (EvGenerate (demo_arguments [1] "with_time" true false false false))).
  - vm_compute. left.
  - reflexivity.
Defined.

(** X9 at the demonstration run. *)
Lemma consumers_need_completed_grid_witness :
  train (demo_arguments [1; 2] "with_and_without_time" false true true true) = true
  ∧ abilities (demo_arguments [1; 2] "with_and_without_time" false true true true) ≠ [].
Proof.
  destruct (run_with_arguments demo_ext
              (demo_arguments [1; 2] "with_and_without_time" false true true true)
              demo_world) as [[r w'] evs] eqn:Hrun.
  destruct (consumers_need_completed_grid demo_ext _ _ _ _ _ Hrun) as (Htrain & Hne & _);
    [|by split].
  right. split; [|by left].
  vm_compute in Hrun. by injection Hrun as <- _ _.
Defined.

(** The demonstration collaborators keep to their contracts. *)
Lemma demo_ext_sound (arguments : Namespace) : sound_collaborators demo_ext arguments.
Proof.
  repeat split; try (intros; by eexists).
  - intros p d w Hp. unfold demo_ext, run_programmatically, demo_train. rewrite Hp.
    eexists _, "theta_03", _. split; [done|]. cbn. apply lookup_insert_eq.
  - intros ckpt roc_file test_file w. by eexists _, _.
Defined.

(** X11 at the demonstration run. *)
Lemma run_ends_normally_witness :
  ∃ w' evs,
    run_with_arguments demo_ext
      (demo_arguments [1; 2] "with_and_without_time" true true true true) demo_world
    = (Ok tt, w', evs).
Proof.
  apply (run_ends_normally demo_ext
           (demo_arguments [1; 2] "with_and_without_time" true true true true) demo_world).
  - apply demo_ext_sound.
  - intros _. by split.
Defined.

(** ** What the run hands to the later stages *)

Section HandOver.

Context {point : Type} (ext : collaborators point).

Local Abbreviation locals := (locals point).
Local Abbreviation event := (event point).

Ltac handed_over :=
  repeat split;
  first [done | by intros [=] | intros _; eexists; reflexivity | eexists; reflexivity].

(** C2.  In a run with [--train] and a non-empty ability list, either the
    generator or the train branch raises, and then the run raises the same
    and neither the visualisation nor the adaptive test is called; or the
    train branch ends normally, and then what the run hands on is what the
    last cell of the grid (last ability value, last time argument) left:
    the last call of the train branch is the evaluation of that cell, the
    curve shown is the one that call returned, under the tag of that cell,
    and the model path printed, shown and tested is the latest checkpoint of
    that cell's directory as the train branch left it.  The later stages
    make exactly these calls, in this order, up to the first that raises,
    and no other: nothing of an earlier cell is handed on. *)
Theorem run_hands_over_last_cell
    (arguments : Namespace) (w w' : world) (r : result unit) (evs : list event) :
  train arguments = true →
  abilities arguments ≠ [] →
  run_with_arguments ext arguments w = (r, w', evs) →
  let generated : M point unit :=
    if generate arguments
    then call (EvGenerate arguments) (generate_responses_run ext arguments)
    else ret tt in
  ∃ a t time_arguments,
    last (abilities arguments) = Some a
    ∧ (∀ w0 : world, ∃ printed,
         get_time_arguments (point := point) arguments w0
         = (Ok time_arguments, w0, printed))
    ∧ last time_arguments = Some t
    ∧ last (grid (abilities arguments) time_arguments) = Some (a, t)
    ∧ ((∃ e, r = Raise e
             ∧ Forall (λ ev, is_consumer_call ev = false) evs
             ∧ (generated w = (Raise e, w', evs)
                ∨ ∃ wg eg et,
                    generated w = (Ok tt, wg, eg)
                    ∧ train_stage ext arguments unbound wg = (Raise e, w', et)
                    ∧ evs = eg ++ et))
       ∨ (∃ wg eg wt et et0 datetime_str c m ckpt later,
             let tag := gen_param_str a datetime_str t in
             let shown :=
               [EvPrint ("visualizing for " +:+ m); EvShowRoc {[ tag := c ]}] in
             let full :=
               (if visualize arguments then shown ++ [EvShowExercises m] else [])
               ++ (if test arguments then [EvAdaptiveTest m] else []) in
             generated w = (Ok tt, wg, eg)
             ∧ train_stage ext arguments unbound wg
               = (Ok (mkLocals (Some t) (Some c) (Some tag) (Some m)), wt, et)
             ∧ et = et0 ++ [EvSimulate ckpt (cell_roc_file arguments datetime_str (a, t))
                              (model_directory arguments +:+ "test.responses") (Ok c)]
             ∧ get_latest_parameter_file_name (point := point)
                 (cell_out_dir arguments datetime_str (a, t)) wt = (Ok m, wt, [])
             ∧ evs = eg ++ et ++ later
             ∧ later `prefix_of` full
             ∧ (r = Ok tt → later = full)
             ∧ (visualize arguments = true → shown `prefix_of` later)
             ∧ (visualize arguments = false → test arguments = true →
                later = [EvAdaptiveTest m]))).
Proof.
  intros Htrain Hne Hrun. cbv zeta.
  destruct (get_time_arguments_run (point := point) arguments) as (tas & Hcases & Htime).
  pose proof Hne as [a Ha]%last_is_Some.
  assert (∃ t, last tas = Some t) as [t Ht].
  { destruct Hcases as [->|[->| ->]]; by eexists. }
  exists a, t, tas. split; [done|]. split.
  { intros w0. destruct (Htime w0) as (printed & Hget & _). by exists printed. }
  split; [done|]. split; [by apply grid_last|].
  unfold run_with_arguments in Hrun. rewrite Htrain in Hrun.
  apply bind_run in Hrun as [(e & -> & Hg)|(u & wg & eg & rest & Hg & Hrun & ->)].
  { left. exists e. split; [done|]. split; [|by left].
    destruct (generate arguments); [|done].
    apply call_run in Hg as [_ ->]. by repeat constructor. }
  destruct u.
  assert (Forall (λ ev : event, is_consumer_call ev = false) eg) as Heg.
  { destruct (generate arguments).
    - apply call_run in Hg as [_ ->]. by repeat constructor.
    - injection Hg as _ <-. constructor. }
  apply bind_run in Hrun as [(e & -> & Hstage)|(vars & wt & et & later & Hstage & Hrest & ->)].
  { left. exists e. split; [done|]. split.
    - apply Forall_app. split; [done|].
      apply (no_consumer_call_before StTrain); [by right|]. by eapply train_stage_events.
    - right. by exists wg, eg, rest. }
  right. pose proof Hstage as Hinv%train_stage_inv. cbv zeta in Hinv.
  destruct Hinv
    as [(e & [=] & _)|[(e & w1 & [=] & _)|(w1 & w2 & evs_loop & _ & _ & Hloop & Het)]].
  destruct (train_loop_leaves_last_cell ext _ _ _ _ _ _ _ Hne Hloop)
    as (a' & t' & tas' & c & m & ckpt & evs0 & Ha' & Htime' & Ht' & _ & Hvars & Hevs
        & Hlatest & _ & _).
  assert (a' = a) as -> by congruence.
  assert (tas' = tas) as ->.
  { destruct (Htime w) as (p1 & H1 & _), (Htime' w) as (p2 & H2). congruence. }
  assert (t' = t) as -> by congruence.
  subst vars evs_loop.
  exists wg, eg, wt, et. eexists (_ ++ evs0), (clock w2), c, m, ckpt, later.
  split; [done|]. split; [done|]. split.
  { rewrite Het. by rewrite app_assoc. }
  split; [exact Hlatest|]. split; [done|].
  clear Hstage Hloop Het Hlatest Hg Heg.
  unfold visualize_stage, test_stage, bind, read_local, ret, print, call in Hrest.
  cbn in Hrest.
  destruct (visualize arguments), (test arguments); cbn in Hrest.
  - destruct (show_roc ext _ wt) as [[[]|e1] w3];
      [destruct (show_exercises ext m w3) as [[[]|e2] w4];
         [destruct (adaptive_pretest_main ext m w4) as [r5 w5]|]|];
      injection Hrest as <- <- <-; handed_over.
  - destruct (show_roc ext _ wt) as [[[]|e1] w3];
      [destruct (show_exercises ext m w3) as [[[]|e2] w4]|];
      injection Hrest as <- <- <-; handed_over.
  - destruct (adaptive_pretest_main ext m wt) as [r5 w5];
      injection Hrest as <- <- <-; handed_over.
  - injection Hrest as <- <- <-; handed_over.
Qed.

End HandOver.

(** C2 at abilities 1 and 2 with both time modes and all stages: the run
    ends normally and the last cell is the one of ability 2 and [-z]. *)
Lemma run_hands_over_last_cell_witness :
  ∃ w' evs a t,
    run_with_arguments demo_ext
      (demo_arguments [1; 2] "with_and_without_time" false true true true) demo_world
    = (Ok tt, w', evs)
    ∧ last (grid [1; 2] [""; "-z"]) = Some (a, t)
    ∧ a = 2 ∧ t = "-z".
Proof.
  destruct (run_with_arguments demo_ext
              (demo_arguments [1; 2] "with_and_without_time" false true true true)
              demo_world) as [[r w'] evs] eqn:Hrun.
  assert (abilities (demo_arguments [1; 2] "with_and_without_time" false true true true)
          ≠ []) as Hne by done.
  assert (train (demo_arguments [1; 2] "with_and_without_time" false true true true)
          = true) as Htrain by done.
  destruct (run_hands_over_last_cell demo_ext _ _ _ _ _ Htrain Hne Hrun)
    as (a & t & tas & Ha & Htime & Ht & Hgrid & _).
  destruct (Htime demo_world) as (printed & Hget).
  vm_compute in Hget. injection Hget as <- _.
  injection Ha as <-. injection Ht as <-.
  vm_compute in Hrun. injection Hrun as <- _ _.
  exists w', evs, 2, "-z". by repeat split.
Defined.
